(** * ReadoutCard: the C-RORC DMA superpage engine and the dummy channel

    A shallow embedding of [CrorcDmaChannel.cxx] and [DummyDmaChannel.cxx]
    with the properties of the design document that concern them.

    Conventions.
    - [size_t], [uintptr_t] and [uint32_t] values are integers in [Z] with
      the wrap-around of their width written out ([u64], [u32]);
      [int32_t] values wrap with [i32].
    - The member variables of a channel form the record [Channel]; every
      member function is a computation in the monad [M], whose outcome is a
      normal return, a thrown C++ exception (both carry the state the
      object is left in) or an abort (failed [assert], undefined behaviour).
    - The card is an environment: every command sent to it is appended to a
      trace, an oracle decides which commands fail, and another oracle says
      what the card has written into the shared Ready-FIFO when the driver
      sleeps. *)

From Stdlib Require Import ZArith List Bool String Ascii Lia DecimalString DecimalZ.
From stdpp Require Import base list list_numbers.
Import ListNotations.
Local Open Scope Z_scope.

(** ** Machine integers *)

Definition u64 (z : Z) : Z := z mod 2 ^ 64.
Definition u32 (z : Z) : Z := z mod 2 ^ 32.
Definition i32 (z : Z) : Z := (z + 2 ^ 31) mod 2 ^ 32 - 2 ^ 31.

(** ** Data model *)

(** [Superpage]: the four attributes the engine reads and writes. *)
Record Superpage : Type := mkSuperpage {
  offset : Z;
  size : Z;
  received : Z;
  ready : bool
}.

Definition set_received (r : Z) (sp : Superpage) : Superpage :=
  {| offset := offset sp; size := size sp; received := r; ready := ready sp |}.

Definition set_ready (b : bool) (sp : Superpage) : Superpage :=
  {| offset := offset sp; size := size sp; received := received sp; ready := b |}.

(** Modelled from the spec: [Superpage::isFilled] (the header is missing);
    "fully received" is [received == size]. *)
Definition isFilled (sp : Superpage) : bool := received sp =? size sp.

Record SuperpageQueueEntry : Type := mkEntry {
  superpage : Superpage;
  busAddress : Z;
  maxPages : Z;
  pushedPages : Z
}.

Definition set_superpage (sp : Superpage) (e : SuperpageQueueEntry) :=
  {| superpage := sp; busAddress := busAddress e;
     maxPages := maxPages e; pushedPages := pushedPages e |}.

Definition set_pushedPages (n : Z) (e : SuperpageQueueEntry) :=
  {| superpage := superpage e; busAddress := busAddress e;
     maxPages := maxPages e; pushedPages := n |}.

(** Modelled from the spec: [SuperpageQueueEntry::getUnpushedPages] and
    [isPushed] (the header is missing): unpushed is
    [max_pages - pushed_pages], fully pushed is [pushed_pages == max_pages]. *)
Definition getUnpushedPages (e : SuperpageQueueEntry) : Z :=
  maxPages e - pushedPages e.
Definition isPushed (e : SuperpageQueueEntry) : bool :=
  pushedPages e =? maxPages e.

(** Modelled from the spec: [ReadyFifo::Entry] (the header is missing): two
    32-bit words, and [reset] writes [status = -1], [length = 0]. *)
Record ReadyFifoEntry : Type := mkFifoEntry {
  length32 : Z;
  status : Z
}.

Definition resetEntry : ReadyFifoEntry := {| length32 := 0; status := -1 |}.

Definition READYFIFO_ENTRIES : Z := 128.

(** [Ddl::DTSW] (constant of a missing header): the low byte of a whole
    arrival's status word, [0x82] as in the comment of [dataArrived]
    ("the status word could be 0x400082"). *)
Definition DTSW : Z := 0x82.

Inductive ResetLevel : Type := RL_Nothing | RL_Internal | RL_InternalDiuSiu.
Inductive LoopbackMode : Type := LB_None | LB_Internal | LB_Siu | LB_Diu | LB_Rorc.
Inductive GeneratorPattern : Type :=
  GP_Constant | GP_Incremental | GP_Alternating | GP_Flying0 | GP_Flying1 | GP_Random.
Inductive ReadoutMode : Type := RM_Continuous | RM_Triggered.
Inductive RorcReset : Type := Reset_FF | Reset_RORC | Reset_DIU | Reset_SIU.
Inductive DataArrivalStatus : Type := NoneArrived | PartArrived | WholeArrived.

Definition ResetLevel_eqb (a b : ResetLevel) : bool :=
  match a, b with
  | RL_Nothing, RL_Nothing | RL_Internal, RL_Internal
  | RL_InternalDiuSiu, RL_InternalDiuSiu => true
  | _, _ => false
  end.

Definition LoopbackMode_eqb (a b : LoopbackMode) : bool :=
  match a, b with
  | LB_None, LB_None | LB_Internal, LB_Internal | LB_Siu, LB_Siu
  | LB_Diu, LB_Diu | LB_Rorc, LB_Rorc => true
  | _, _ => false
  end.

Definition DataArrivalStatus_eqb (a b : DataArrivalStatus) : bool :=
  match a, b with
  | NoneArrived, NoneArrived | PartArrived, PartArrived
  | WholeArrived, WholeArrived => true
  | _, _ => false
  end.

(** The value [initDiuVersion] returns; the engine only passes it on. *)
Definition DiuConfig : Type := Z.

(** The Card Ops commands the channel issues, with their arguments. *)
Inductive CardCmd : Type :=
| InitReadoutContinuous
| StartReadoutContinuous
| InitDiuVersion
| ResetCommand (kind : RorcReset) (diu : DiuConfig)
| ArmDdl (kind : RorcReset) (diu : DiuConfig)
| AssertLinkUp
| SiuCommandRandCIFST
| DiuCommandRandCIFST
| StartTrigger (diu : DiuConfig)
| StopTrigger (diu : DiuConfig)
| ArmDataGenerator (initialValue initialWord : Z) (pattern : GeneratorPattern)
    (dataSize seed : Z)
| SetLoopbackOn
| SetSiuLoopback (diu : DiuConfig)
| StartDataGenerator (maximumEvents : Z)
| StopDataGenerator
| StopDataReceiver
| AssertFreeFifoEmpty
| StartDataReceiver (readyFifoBusAddress : Z)
| PushRxFreeFifo (pageBusAddress pageWords readyFifoIndex : Z).

Definition isPushRxFreeFifo (c : CardCmd) : bool :=
  match c with PushRxFreeFifo _ _ _ => true | _ => false end.

Inductive ErrorInfo : Type :=
| InfoResetLevel (l : ResetLevel)
| InfoLoopbackMode (m : LoopbackMode).

Inductive Exception : Type :=
| CardError (cmd : CardCmd) (info : list ErrorInfo)
| CrorcDataArrivalException (message : string) (fifoStatus fifoLength fifoIndex : Z)
| CrorcException (message : string)
| ParameterError (message : string)
| QueueFullError
| QueueEmptyError.

(** ** The superpage queue *)

(** Modelled from the spec: the class [SuperpageQueue] (its header is
    missing): one ordered collection partitioned into three contiguous
    regions, Filled first, then Arrivals, then Pushing; a transition
    advances a boundary, so an entry never changes its place and a reference
    to it (here: its index) stays valid across the transitions. *)
Record SuperpageQueue : Type := mkQueue {
  entries : list SuperpageQueueEntry;
  nFilled : nat;
  nArrivals : nat
}.

Definition getFilled (q : SuperpageQueue) : list SuperpageQueueEntry :=
  take (nFilled q) (entries q).
Definition getArrivals (q : SuperpageQueue) : list SuperpageQueueEntry :=
  take (nArrivals q) (drop (nFilled q) (entries q)).
Definition getPushing (q : SuperpageQueue) : list SuperpageQueueEntry :=
  drop (nFilled q + nArrivals q)%nat (entries q).

Definition emptyQueue : SuperpageQueue :=
  {| entries := []; nFilled := 0; nArrivals := 0 |}.

Definition isNil {A} (l : list A) : bool :=
  match l with [] => true | _ => false end.

(** ** Channel state *)

(** The mutable members of [CrorcDmaChannel], the shared Ready-FIFO
    ([*getReadyFifoUser()]), and the two records of what the channel did to
    the outside: the commands sent to the card and the 32-bit stores into
    the client's DMA buffer, oldest first. *)
Record Channel : Type := mkChannel {
  mFifoBack : Z;
  mFifoSize : Z;
  mPendingDmaStart : bool;
  mSuperpageQueue : SuperpageQueue;
  mDiuConfig : DiuConfig;
  readyFifo : list ReadyFifoEntry;
  cardTrace : list CardCmd;
  bufferWrites : list (Z * Z)
}.

Definition set_mFifoBack (v : Z) (s : Channel) : Channel :=
  {| mFifoBack := v; mFifoSize := mFifoSize s;
     mPendingDmaStart := mPendingDmaStart s;
     mSuperpageQueue := mSuperpageQueue s; mDiuConfig := mDiuConfig s;
     readyFifo := readyFifo s; cardTrace := cardTrace s;
     bufferWrites := bufferWrites s |}.

Definition set_mFifoSize (v : Z) (s : Channel) : Channel :=
  {| mFifoBack := mFifoBack s; mFifoSize := v;
     mPendingDmaStart := mPendingDmaStart s;
     mSuperpageQueue := mSuperpageQueue s; mDiuConfig := mDiuConfig s;
     readyFifo := readyFifo s; cardTrace := cardTrace s;
     bufferWrites := bufferWrites s |}.

Definition set_mPendingDmaStart (v : bool) (s : Channel) : Channel :=
  {| mFifoBack := mFifoBack s; mFifoSize := mFifoSize s;
     mPendingDmaStart := v;
     mSuperpageQueue := mSuperpageQueue s; mDiuConfig := mDiuConfig s;
     readyFifo := readyFifo s; cardTrace := cardTrace s;
     bufferWrites := bufferWrites s |}.

Definition set_mSuperpageQueue (v : SuperpageQueue) (s : Channel) : Channel :=
  {| mFifoBack := mFifoBack s; mFifoSize := mFifoSize s;
     mPendingDmaStart := mPendingDmaStart s;
     mSuperpageQueue := v; mDiuConfig := mDiuConfig s;
     readyFifo := readyFifo s; cardTrace := cardTrace s;
     bufferWrites := bufferWrites s |}.

Definition set_mDiuConfig (v : DiuConfig) (s : Channel) : Channel :=
  {| mFifoBack := mFifoBack s; mFifoSize := mFifoSize s;
     mPendingDmaStart := mPendingDmaStart s;
     mSuperpageQueue := mSuperpageQueue s; mDiuConfig := v;
     readyFifo := readyFifo s; cardTrace := cardTrace s;
     bufferWrites := bufferWrites s |}.

Definition set_readyFifo (v : list ReadyFifoEntry) (s : Channel) : Channel :=
  {| mFifoBack := mFifoBack s; mFifoSize := mFifoSize s;
     mPendingDmaStart := mPendingDmaStart s;
     mSuperpageQueue := mSuperpageQueue s; mDiuConfig := mDiuConfig s;
     readyFifo := v; cardTrace := cardTrace s;
     bufferWrites := bufferWrites s |}.

Definition set_cardTrace (v : list CardCmd) (s : Channel) : Channel :=
  {| mFifoBack := mFifoBack s; mFifoSize := mFifoSize s;
     mPendingDmaStart := mPendingDmaStart s;
     mSuperpageQueue := mSuperpageQueue s; mDiuConfig := mDiuConfig s;
     readyFifo := readyFifo s; cardTrace := v;
     bufferWrites := bufferWrites s |}.

Definition set_bufferWrites (v : list (Z * Z)) (s : Channel) : Channel :=
  {| mFifoBack := mFifoBack s; mFifoSize := mFifoSize s;
     mPendingDmaStart := mPendingDmaStart s;
     mSuperpageQueue := mSuperpageQueue s; mDiuConfig := mDiuConfig s;
     readyFifo := readyFifo s; cardTrace := cardTrace s;
     bufferWrites := v |}.

(** ** The monad of member functions *)

Inductive outcome (A : Type) : Type :=
| Ok (a : A) (s : Channel)
| Throw (e : Exception) (s : Channel)
| Abort.
Arguments Ok {A} a s.
Arguments Throw {A} e s.
Arguments Abort {A}.

Definition M (A : Type) : Type := Channel -> outcome A.

Definition ret {A} (a : A) : M A := fun s => Ok a s.

Definition bind {A B} (m : M A) (k : A -> M B) : M B :=
  fun s => match m s with
           | Ok a s' => k a s'
           | Throw e s' => Throw e s'
           | Abort => Abort
           end.

Definition throw {A} (e : Exception) : M A := fun s => Throw e s.
Definition abort {A} : M A := fun _ => Abort.
Definition get : M Channel := fun s => Ok s s.
Definition modify (f : Channel -> Channel) : M unit := fun s => Ok tt (f s).

(** [assert(b)] *)
Definition assert (b : bool) : M unit := if b then ret tt else abort.

(** [try { m } catch (Exception& e) { h e }] *)
Definition try_catch {A} (m : M A) (h : Exception -> M A) : M A :=
  fun s => match m s with
           | Throw e s' => h e s'
           | r => r
           end.

Declare Scope crorc_scope.
Delimit Scope crorc_scope with crorc.
Notation "x <- c1 ;; c2" := (bind c1 (fun x => c2))
  (at level 100, c1 at next level, right associativity) : crorc_scope.
Notation "c1 ;;; c2" := (bind c1 (fun _ => c2))
  (at level 100, right associativity) : crorc_scope.
Notation "'when' b 'then' c" := (if b then c else ret tt)
  (at level 100, b at next level) : crorc_scope.
Local Open Scope crorc_scope.

(** [for (int i = from; i < from + n; ++i) body(i)] *)
Fixpoint for_loop (n : nat) (from : Z) (body : Z -> M unit) : M unit :=
  match n with
  | O => ret tt
  | S n' => body from ;;; for_loop n' (from + 1) body
  end.

(** The state an outcome leaves the object in, when the process survives. *)
Definition final_state {A} (r : outcome A) : option Channel :=
  match r with
  | Ok _ s => Some s
  | Throw _ s => Some s
  | Abort => None
  end.

(** ** Environment and configuration *)

(** The card, seen from the driver. [card_ok h c] says whether command [c]
    succeeds after the commands [h]; [diuVersion h] is what
    [initDiuVersion] then returns; [card_dma h f] is the Ready-FIFO as the
    card leaves it while the driver sleeps, from contents [f]; [rfid] is
    the value of register [RFID]. *)
Class Card : Type := {
  card_ok : list CardCmd -> CardCmd -> bool;
  diuVersion : list CardCmd -> DiuConfig;
  card_dma : list CardCmd -> list ReadyFifoEntry -> list ReadyFifoEntry;
  rfid : Z
}.

(** Constants and helpers of headers that are not part of the sources at
    hand: the ring budget, the capacity of the transfer side of the
    superpage queue, and [LoopbackMode::isExternal]. *)
Class Constants : Type := {
  FIFO_QUEUE_MAX : Z;
  TRANSFER_QUEUE_SIZE : nat;
  isExternal : LoopbackMode -> bool
}.

(** The members of [CrorcDmaChannel] that are fixed at construction, the
    user-space and bus base address of the client's DMA buffer and its
    size. *)
Class Config : Type := {
  mPageSize : Z;
  mInitialResetLevel : ResetLevel;
  mNoRDYRX : bool;
  mUseFeeAddress : bool;
  mLoopbackMode : LoopbackMode;
  mGeneratorEnabled : bool;
  mGeneratorPattern : GeneratorPattern;
  mGeneratorMaximumEvents : Z;
  mGeneratorInitialValue : Z;
  mGeneratorInitialWord : Z;
  mGeneratorSeed : Z;
  mGeneratorDataSize : Z;
  mUseContinuousReadout : bool;
  mReadyFifoAddressBus : Z;
  mDmaBufferUserspace : Z;
  bufferBusAddress : Z;
  bufferSize : Z
}.

(** The optional construction parameters that the constructor reads. *)
Record Parameters : Type := mkParameters {
  getDmaPageSize : option Z;
  getGeneratorLoopback : option LoopbackMode;
  getGeneratorEnabled : option bool;
  getGeneratorPattern : option GeneratorPattern;
  getGeneratorDataSize : option Z;
  getReadoutMode : option ReadoutMode
}.

Definition get_value_or {A} (o : option A) (d : A) : A :=
  match o with Some a => a | None => d end.

(** The member initialisers of [CrorcDmaChannel::CrorcDmaChannel]. *)
Definition construct (parameters : Parameters)
    (readyFifoBus bufferUser bufferBus bufferBytes : Z) : Config :=
  let pageSize := get_value_or (getDmaPageSize parameters) (8 * 1024) in
  let pattern := get_value_or (getGeneratorPattern parameters) GP_Incremental in
  {| mPageSize := pageSize;
     mInitialResetLevel := RL_Internal;
     mNoRDYRX := true;
     mUseFeeAddress := false;
     mLoopbackMode := get_value_or (getGeneratorLoopback parameters) LB_Internal;
     mGeneratorEnabled := get_value_or (getGeneratorEnabled parameters) true;
     mGeneratorPattern := pattern;
     mGeneratorMaximumEvents := 0;
     mGeneratorInitialValue := 0;
     mGeneratorInitialWord := 0;
     mGeneratorSeed := match pattern with GP_Random => 1 | _ => 0 end;
     mGeneratorDataSize := get_value_or (getGeneratorDataSize parameters) pageSize;
     mUseContinuousReadout :=
       match getReadoutMode parameters with
       | Some RM_Continuous => true
       | _ => false
       end;
     mReadyFifoAddressBus := readyFifoBus;
     mDmaBufferUserspace := bufferUser;
     bufferBusAddress := bufferBus;
     bufferSize := bufferBytes |}.

(** Modelled from the spec: [Utilities::isMultiple] and
    [Utilities::getBits] (the header is missing): [x] is a multiple of [y],
    and the field [bits[lsb:msb]] of a word, both ends included. *)
Definition isMultiple (x y : Z) : bool := x mod y =? 0.
Definition getBits (x lsb msb : Z) : Z :=
  Z.land (Z.shiftr x lsb) (Z.ones (msb - lsb + 1)).

(** [operator<<] of an unsigned integer on a stream: decimal digits. *)
Definition show_uint (z : Z) : string :=
  NilEmpty.string_of_uint (N.to_uint (Z.to_N z)).

Section Engine.
Context {card : Card} {consts : Constants} {cfg : Config}.

(** *** Card Ops and time *)

(** One command to the card ([getCrorc().f(...)]): it is recorded, and
    fails when the card says so. *)
Definition crorc (c : CardCmd) : M unit :=
  fun s =>
    let s' := set_cardTrace (cardTrace s ++ [c]) s in
    if card_ok (cardTrace s) c then Ok tt s' else Throw (CardError c []) s'.

Definition initDiuVersion : M DiuConfig :=
  crorc InitDiuVersion ;;; fun s => Ok (diuVersion (cardTrace s)) s.

(** [std::this_thread::sleep_for]: time passes, the card writes. *)
Definition sleep_for : M unit :=
  modify (fun s => set_readyFifo (card_dma (cardTrace s) (readyFifo s)) s).

(** *** Superpage queue operations (modelled from the spec, see
    [SuperpageQueue]) *)

Definition getQueue : M SuperpageQueue := fun s => Ok (mSuperpageQueue s) s.
Definition setQueue (q : SuperpageQueue) : M unit := modify (set_mSuperpageQueue q).

(** Modelled from the spec: [getQueueAvailable], "capacity minus
    (|Pushing| + |Arrivals|)". *)
Definition getQueueAvailable (q : SuperpageQueue) : Z :=
  Z.of_nat TRANSFER_QUEUE_SIZE
  - Z.of_nat (length (getPushing q) + length (getArrivals q)).

(** Modelled from the spec: [addToQueue], "append to Pushing", refused
    with [QueueFull] when no transfer slot is available. *)
Definition addToQueue (e : SuperpageQueueEntry) : M unit :=
  q <- getQueue ;;
  if getQueueAvailable q <=? 0 then throw QueueFullError
  else setQueue {| entries := entries q ++ [e];
                   nFilled := nFilled q; nArrivals := nArrivals q |}.

(** Modelled from the spec: [removeFromPushingQueue], "advance the
    boundary so the front of Pushing joins the tail of Arrivals". *)
Definition removeFromPushingQueue : M unit :=
  q <- getQueue ;;
  if isNil (getPushing q) then throw QueueEmptyError
  else setQueue {| entries := entries q;
                   nFilled := nFilled q; nArrivals := S (nArrivals q) |}.

(** Modelled from the spec: [moveFromArrivalsToFilledQueue],
    "analogous": the front of Arrivals joins the tail of Filled. *)
Definition moveFromArrivalsToFilledQueue : M unit :=
  q <- getQueue ;;
  if isNil (getArrivals q) then throw QueueEmptyError
  else setQueue {| entries := entries q;
                   nFilled := S (nFilled q); nArrivals := pred (nArrivals q) |}.

(** Modelled from the spec: [removeFromFilledQueue], "pop head";
    [QueueEmpty] if Filled is empty. *)
Definition removeFromFilledQueue : M SuperpageQueueEntry :=
  q <- getQueue ;;
  match getFilled q with
  | [] => throw QueueEmptyError
  | e :: _ =>
      setQueue {| entries := drop 1 (entries q);
                  nFilled := pred (nFilled q); nArrivals := nArrivals q |} ;;;
      ret e
  end.

(** Modelled from the spec: the [front] accessors. A reference to an
    entry is its index in the collection. *)
Definition getPushingFrontEntry : M nat :=
  q <- getQueue ;;
  if isNil (getPushing q) then throw QueueEmptyError
  else ret (nFilled q + nArrivals q)%nat.

Definition getArrivalsFrontEntry : M nat :=
  q <- getQueue ;;
  if isNil (getArrivals q) then throw QueueEmptyError
  else ret (nFilled q).

(** Modelled from the spec: [getFrontSuperpage], "peek head of Filled". *)
Definition getFrontSuperpage : M Superpage :=
  q <- getQueue ;;
  match getFilled q with
  | [] => throw QueueEmptyError
  | e :: _ => ret (superpage e)
  end.

Definition clear : M unit := setQueue emptyQueue.

(** Reading and writing through a [SuperpageQueueEntry&]. *)
Definition deref (r : nat) : M SuperpageQueueEntry :=
  fun s => match entries (mSuperpageQueue s) !! r with
           | Some e => Ok e s
           | None => Abort
           end.

Definition update (r : nat) (f : SuperpageQueueEntry -> SuperpageQueueEntry)
  : M unit :=
  modify (fun s =>
    let q := mSuperpageQueue s in
    set_mSuperpageQueue
      {| entries := alter f r (entries q);
         nFilled := nFilled q; nArrivals := nArrivals q |} s).

(** *** The Ready-FIFO *)

(** [getReadyFifoUser()->entries[index]], read. *)
Definition fifoEntry (index : Z) : M ReadyFifoEntry :=
  fun s =>
    if (0 <=? index) && (index <? READYFIFO_ENTRIES) then
      match readyFifo s !! Z.to_nat index with
      | Some e => Ok e s
      | None => Abort
      end
    else Abort.

(** [getReadyFifoUser()->entries[index].reset()] *)
Definition resetDescriptor (index : Z) : M unit :=
  fun s =>
    if (0 <=? index) && (index <? READYFIFO_ENTRIES) then
      Ok tt (set_readyFifo (<[Z.to_nat index := resetEntry]> (readyFifo s)) s)
    else Abort.

(** [getReadyFifoUser()->reset()] *)
Definition resetReadyFifo : M unit :=
  modify (fun s => set_readyFifo (map (fun _ => resetEntry) (readyFifo s)) s).

(** Modelled from the spec: [getFifoFront] (declared in the missing
    header): the ring slot of the next push,
    [(fifo_back + fifo_size) mod N]. *)
Definition getFifoFront (s : Channel) : Z :=
  (mFifoBack s + mFifoSize s) mod READYFIFO_ENTRIES.

(** *** [CrorcDmaChannel] *)

Definition deviceStartDma : M unit :=
  modify (set_mFifoBack 0) ;;;
  modify (set_mFifoSize 0) ;;;
  clear ;;;
  modify (set_mPendingDmaStart true).

Definition add_info (info : list ErrorInfo) (e : Exception) : Exception :=
  match e with
  | CardError c i => CardError c (i ++ info)
  | _ => e
  end.

Definition deviceResetChannel (resetLevel : ResetLevel) : M unit :=
  if ResetLevel_eqb resetLevel RL_Nothing then ret tt
  else
    try_catch
      (s <- get ;;
       let diu := mDiuConfig s in
       (when ResetLevel_eqb resetLevel RL_Internal then
          (crorc (ResetCommand Reset_FF diu) ;;;
           crorc (ResetCommand Reset_RORC diu))) ;;;
       (when isExternal mLoopbackMode then
          (crorc (ArmDdl Reset_DIU diu) ;;;
           (when ResetLevel_eqb resetLevel RL_InternalDiuSiu
                 && negb (LoopbackMode_eqb mLoopbackMode LB_Diu) then
              (sleep_for ;;;
               crorc (ArmDdl Reset_SIU diu) ;;;
               crorc (ArmDdl Reset_DIU diu))) ;;;
           crorc (ArmDdl Reset_RORC diu))))
      (fun e => throw (add_info [InfoResetLevel resetLevel;
                                 InfoLoopbackMode mLoopbackMode] e)) ;;;
    sleep_for.

Definition startDataGenerator : M unit :=
  s <- get ;;
  let diu := mDiuConfig s in
  (when LoopbackMode_eqb LB_None mLoopbackMode then crorc (StartTrigger diu)) ;;;
  crorc (ArmDataGenerator mGeneratorInitialValue mGeneratorInitialWord
           mGeneratorPattern mGeneratorDataSize mGeneratorSeed) ;;;
  (when LoopbackMode_eqb LB_Internal mLoopbackMode then
     (crorc SetLoopbackOn ;;; sleep_for)) ;;;
  (when LoopbackMode_eqb LB_Siu mLoopbackMode then
     (crorc (SetSiuLoopback diu) ;;;
      sleep_for ;;;
      crorc AssertLinkUp ;;;
      crorc SiuCommandRandCIFST ;;;
      crorc DiuCommandRandCIFST)) ;;;
  crorc (StartDataGenerator mGeneratorMaximumEvents).

Definition startDataReceiving : M unit :=
  initDiuVersion ;;;
  (when LoopbackMode_eqb LB_Siu mLoopbackMode then
     (deviceResetChannel RL_InternalDiuSiu ;;;
      crorc AssertLinkUp ;;;
      crorc SiuCommandRandCIFST ;;;
      crorc DiuCommandRandCIFST)) ;;;
  s <- get ;;
  crorc (ResetCommand Reset_FF (mDiuConfig s)) ;;;
  sleep_for ;;;
  crorc AssertFreeFifoEmpty ;;;
  crorc (StartDataReceiver mReadyFifoAddressBus).

Definition getNextSuperpageBusAddress (entry : SuperpageQueueEntry) : Z :=
  let offset := u64 (mPageSize * pushedPages entry) in
  u64 (busAddress entry + offset).

Definition pushFreeFifoPage (readyFifoIndex pageBusAddress : Z) : M unit :=
  let pageWords := mPageSize / 4 in
  crorc (PushRxFreeFifo pageBusAddress pageWords readyFifoIndex).

Definition pushIntoSuperpage (entry : nat) : M unit :=
  s <- get ;;
  assert (mFifoSize s <? FIFO_QUEUE_MAX) ;;;
  e <- deref entry ;;
  assert (pushedPages e <? maxPages e) ;;;
  pushFreeFifoPage (getFifoFront s) (getNextSuperpageBusAddress e) ;;;
  modify (fun s => set_mFifoSize (mFifoSize s + 1) s) ;;;
  update entry (fun e => set_pushedPages (pushedPages e + 1) e).

Definition dataArrived (index : Z) : M DataArrivalStatus :=
  e <- fifoEntry index ;;
  let length := length32 e in
  let status := status e in
  if status =? -1 then ret NoneArrived
  else if status =? 0 then ret PartArrived
  else if Z.land status 0xff =? DTSW then
    if negb (Z.land status (i32 (Z.shiftl 1 31)) =? 0) then
      throw (CrorcDataArrivalException
               "Data arrival status word contains error bits"
               status length index)
    else ret WholeArrived
  else
    throw (CrorcDataArrivalException
             "Unrecognized data arrival status word" status length index).

(** [startPendingDma(entry)], with [entry] the reference the caller took
    from the front of Pushing. *)
Definition startPendingDma (entry : nat) : M unit :=
  s <- get ;;
  if negb (mPendingDmaStart s) then ret tt
  else
    (when mUseContinuousReadout then crorc InitReadoutContinuous) ;;;
    diu <- initDiuVersion ;;
    modify (set_mDiuConfig diu) ;;;
    deviceResetChannel mInitialResetLevel ;;;
    startDataReceiving ;;;
    for_loop (Z.to_nat READYFIFO_ENTRIES) 0
      (fun i => resetDescriptor i ;;; pushIntoSuperpage entry) ;;;
    e <- deref entry ;;
    assert (pushedPages e <=? maxPages e) ;;;
    (when pushedPages e =? maxPages e then removeFromPushingQueue) ;;;
    (if mGeneratorEnabled then startDataGenerator
     else
       when negb mNoRDYRX then
         (crorc AssertLinkUp ;;;
          crorc SiuCommandRandCIFST ;;;
          crorc DiuCommandRandCIFST ;;;
          s <- get ;;
          crorc (StartTrigger (mDiuConfig s)))) ;;;
    sleep_for ;;;
    _ <- dataArrived (READYFIFO_ENTRIES - 1) ;;
    update entry (fun e =>
      let sp := superpage e in
      set_superpage
        (set_received (u64 (received sp + u64 (READYFIFO_ENTRIES * mPageSize))) sp)
        e) ;;;
    e <- deref entry ;;
    (when received (superpage e) =? size (superpage e) then
       (update entry (fun e => set_superpage (set_ready true (superpage e)) e) ;;;
        moveFromArrivalsToFilledQueue)) ;;;
    resetReadyFifo ;;;
    modify (set_mFifoBack 0) ;;;
    modify (set_mFifoSize 0) ;;;
    modify (set_mPendingDmaStart false) ;;;
    (when mUseContinuousReadout then crorc StartReadoutContinuous).

Definition deviceStopDma : M unit :=
  if mGeneratorEnabled then
    startDataGenerator ;;;
    crorc StopDataGenerator ;;;
    crorc StopDataReceiver
  else
    when negb mNoRDYRX then
      (s <- get ;; crorc (StopTrigger (mDiuConfig s))).

Definition getTransferQueueAvailable : M Z :=
  q <- getQueue ;; ret (getQueueAvailable q).

Definition getReadyQueueSize : M Z :=
  q <- getQueue ;; ret (Z.of_nat (length (getFilled q))).

Definition getSuperpage : M Superpage := getFrontSuperpage.

(** Modelled from the spec: [checkSuperpage] and [getBusOffsetAddress] of
    the base class [DmaChannelPdaBase], which is missing. The validation
    is the part of "size multiple of page granule, offset 4-byte aligned,
    offset+size <= buffer_size, transfer queue not full" that
    [pushSuperpage] and [addToQueue] do not do themselves, with the
    invariant [size > 0]; the bus address is [buffer_base_bus + offset]. *)
Definition checkSuperpage (sp : Superpage) : M unit :=
  if size sp =? 0 then
    throw (ParameterError "Could not enqueue superpage, size == 0")
  else if u64 (offset sp + size sp) >? bufferSize then
    throw (ParameterError "Superpage out of range")
  else if negb (offset sp mod 4 =? 0) then
    throw (ParameterError "Superpage offset not 32-bit aligned")
  else ret tt.

Definition getBusOffsetAddress (off : Z) : Z := u64 (bufferBusAddress + off).

Definition MIN_SIZE : Z := 1 * 1024 * 1024.

Definition pushSuperpage (sp : Superpage) : M unit :=
  checkSuperpage sp ;;;
  if negb (isMultiple (size sp) MIN_SIZE) then
    throw (CrorcException
      "Could not enqueue superpage, C-RORC backend requires superpage size multiple of 1 MiB")
  else if mPageSize =? 0 then abort
  else
    let entry :=
      {| busAddress := getBusOffsetAddress (offset sp);
         maxPages := size sp / mPageSize;
         pushedPages := 0;
         superpage := set_received 0 sp |} in
    addToQueue entry.

Definition popSuperpage : M Superpage :=
  e <- removeFromFilledQueue ;; ret (superpage e).

(** [isArrived], the lambda of [fillSuperpages]. *)
Definition isArrived (descriptorIndex : Z) : M bool :=
  st <- dataArrived descriptorIndex ;;
  ret (DataArrivalStatus_eqb st WholeArrived).

(** [writeSdhEventSize], the lambda of [fillSuperpages]: four volatile
    32-bit stores. *)
Definition OFFSET_SDH_EVENT_SIZE : Z := 16.

Definition writeSdhEventSize (pageAddress eventSize : Z) : M unit :=
  let address := u64 (pageAddress + OFFSET_SDH_EVENT_SIZE) in
  modify (fun s =>
    set_bufferWrites
      (bufferWrites s ++ [(address, 0); (u64 (address + 4), 0);
                          (u64 (address + 8), 0);
                          (u64 (address + 12), eventSize)]) s).

(** First block of [fillSuperpages] (lines 310-331): push new pages. *)
Definition pushPhase : M unit :=
  q <- getQueue ;;
  when negb (isNil (getPushing q)) then
    (entry <- getPushingFrontEntry ;;
     s <- get ;;
     if mPendingDmaStart s then startPendingDma entry
     else
       e <- deref entry ;;
       let freeDescriptors := FIFO_QUEUE_MAX - mFifoSize s in
       let freePages := getUnpushedPages e in
       let possibleToPush := Z.min freeDescriptors freePages in
       for_loop (Z.to_nat possibleToPush) 0
         (fun _ => pushIntoSuperpage entry) ;;;
       e <- deref entry ;;
       when isPushed e then removeFromPushingQueue).

(** The statements of the [if (isArrived(mFifoBack))] branch
    (lines 342-371). *)
Definition harvestPage (entry : nat) : M unit :=
  s <- get ;;
  f <- fifoEntry (mFifoBack s) ;;
  let length := u32 (length32 f) in
  e <- deref entry ;;
  let pageAddress :=
    u64 (u64 (mDmaBufferUserspace + offset (superpage e))
         + received (superpage e)) in
  writeSdhEventSize pageAddress length ;;;
  resetDescriptor (mFifoBack s) ;;;
  modify (fun s => set_mFifoSize (mFifoSize s - 1) s) ;;;
  modify (fun s => set_mFifoBack ((mFifoBack s + 1) mod READYFIFO_ENTRIES) s) ;;;
  update entry (fun e =>
    set_superpage
      (set_received (u64 (received (superpage e) + mPageSize)) (superpage e)) e) ;;;
  e <- deref entry ;;
  when isFilled (superpage e) then
    (update entry (fun e => set_superpage (set_ready true (superpage e)) e) ;;;
     moveFromArrivalsToFilledQueue).

(** One turn of the [while (mFifoSize > 0)] loop; [true] when the loop
    goes on, [false] at [break]. *)
Definition arrivalStep : M bool :=
  entry <- getArrivalsFrontEntry ;;
  s <- get ;;
  arrived <- isArrived (mFifoBack s) ;;
  if arrived then harvestPage entry ;;; ret true
  else ret false.

(** [while (mFifoSize > 0) { ... }]; every turn that goes on decrements
    [mFifoSize], so [mFifoSize] turns are enough (see
    [arrivalLoop_fuel]). *)
Fixpoint arrivalLoop (fuel : nat) : M unit :=
  match fuel with
  | O => ret tt
  | S fuel' =>
      s <- get ;;
      if mFifoSize s >? 0 then
        go_on <- arrivalStep ;;
        if go_on then arrivalLoop fuel' else ret tt
      else ret tt
  end.

(** Second block of [fillSuperpages] (lines 333-377): check for arrivals
    and handle them. *)
Definition arrivalPhase : M unit :=
  q <- getQueue ;;
  when negb (isNil (getArrivals q)) then
    (s <- get ;; arrivalLoop (Z.to_nat (mFifoSize s))).

Definition fillSuperpages : M unit := pushPhase ;;; arrivalPhase.

Definition getFirmwareInfo : M (option string) :=
  let version := u32 rfid in
  let bits := getBits version in
  let reserved := bits 24 31 in
  let major := bits 20 23 in
  let minor := bits 13 19 in
  let year := u32 (bits 9 12 + 2000) in
  let month := bits 5 8 in
  let day := bits 0 4 in
  if negb (reserved =? 0x2) then
    throw (CrorcException "Static field of version register did not equal 0x2")
  else
    ret (Some (show_uint major ++ "." ++ show_uint minor ++ ":"
               ++ show_uint year ++ "-" ++ show_uint month ++ "-"
               ++ show_uint day)%string).
End Engine.

(** ** The dummy channel ([DummyDmaChannel.cxx]) *)

Module Dummy.

Definition TRANSFER_QUEUE_SIZE : nat := 16.
Definition READY_QUEUE_SIZE : nat := 32.

(** Both queues are [boost::circular_buffer<Superpage>], of capacity
    [TRANSFER_QUEUE_SIZE] and [READY_QUEUE_SIZE]; front of the buffer
    first. *)
Record DummyDmaChannel : Type := mkDummy {
  mTransferQueue : list Superpage;
  mReadyQueue : list Superpage;
  mBufferSize : Z
}.

(** [circular_buffer::push_back]: a full buffer overwrites its oldest
    element. *)
Definition push_back {A} (capacity : nat) (x : A) (l : list A) : list A :=
  if (length l <? capacity)%nat then l ++ [x]
  else match capacity with
       | O => l
       | S _ => drop 1 l ++ [x]
       end.

Definition full {A} (capacity : nat) (l : list A) : bool :=
  (length l =? capacity)%nat.

(** A call either returns a value and the new state, or throws
    [Exception] with a message; no member is changed before a throw. *)
Definition result (A : Type) : Type := (string + A * DummyDmaChannel)%type.

Definition startDma (c : DummyDmaChannel) : DummyDmaChannel :=
  {| mTransferQueue := []; mReadyQueue := []; mBufferSize := mBufferSize c |}.

Definition stopDma (c : DummyDmaChannel) : DummyDmaChannel := c.

Definition getTransferQueueAvailable (c : DummyDmaChannel) : Z :=
  Z.of_nat TRANSFER_QUEUE_SIZE - Z.of_nat (length (mTransferQueue c)).

Definition getReadyQueueSize (c : DummyDmaChannel) : Z :=
  Z.of_nat (length (mReadyQueue c)).

Definition pushSuperpage (sp : Superpage) (c : DummyDmaChannel) : result unit :=
  if getTransferQueueAvailable c =? 0 then
    inl "Could not push superpage, transfer queue was full"%string
  else if size sp =? 0 then
    inl "Could not enqueue superpage, size == 0"%string
  else if negb (isMultiple (size sp) (32 * 1024)) then
    inl "Could not enqueue superpage, size not a multiple of 32 KiB"%string
  else if u64 (offset sp + size sp) >? mBufferSize c then
    inl "Superpage out of range"%string
  else if negb (offset sp mod 4 =? 0) then
    inl "Superpage offset not 32-bit aligned"%string
  else
    inr (tt, {| mTransferQueue :=
                  push_back TRANSFER_QUEUE_SIZE sp (mTransferQueue c);
                mReadyQueue := mReadyQueue c;
                mBufferSize := mBufferSize c |}).

Definition popSuperpage (c : DummyDmaChannel) : result Superpage :=
  match mReadyQueue c with
  | [] => inl "Could not pop superpage, ready queue was empty"%string
  | superpage :: rest =>
      inr (superpage, {| mTransferQueue := mTransferQueue c;
                         mReadyQueue := rest;
                         mBufferSize := mBufferSize c |})
  end.

(** What [fillSuperpages] writes into the front of the transfer queue
    before it copies it to the ready queue. *)
Definition fill (sp : Superpage) : Superpage :=
  set_received (size sp) (set_ready true sp).

(** The [for] loop of [fillSuperpages], [n] turns left. *)
Fixpoint fillLoop (n : nat) (c : DummyDmaChannel) : DummyDmaChannel :=
  match n with
  | O => c
  | S n' =>
      if full READY_QUEUE_SIZE (mReadyQueue c) then c
      else
        match mTransferQueue c with
        | [] => c
        | front :: rest =>
            fillLoop n'
              {| mTransferQueue := rest;
                 mReadyQueue :=
                   push_back READY_QUEUE_SIZE (fill front) (mReadyQueue c);
                 mBufferSize := mBufferSize c |}
        end
  end.

Definition fillSuperpages (c : DummyDmaChannel) : DummyDmaChannel :=
  let pushQueueSize := length (mTransferQueue c) in
  fillLoop pushQueueSize c.

(** A client: calls of the public interface, in any order. *)
Inductive Call : Type :=
| CallPush (sp : Superpage)
| CallFill
| CallPop.

(** What a client observes: the superpages whose push was accepted and
    the superpages its pops returned, both oldest first. *)
Record Observation : Type := mkObservation {
  channel : DummyDmaChannel;
  accepted : list Superpage;
  popped : list Superpage
}.

Definition call (o : Observation) (k : Call) : Observation :=
  match k with
  | CallPush sp =>
      match pushSuperpage sp (channel o) with
      | inr (_, c') =>
          {| channel := c'; accepted := accepted o ++ [sp]; popped := popped o |}
      | inl _ => o
      end
  | CallFill =>
      {| channel := fillSuperpages (channel o);
         accepted := accepted o; popped := popped o |}
  | CallPop =>
      match popSuperpage (channel o) with
      | inr (sp, c') =>
          {| channel := c'; accepted := accepted o; popped := popped o ++ [sp] |}
      | inl _ => o
      end
  end.

Definition run (calls : list Call) (o : Observation) : Observation :=
  fold_left call calls o.

(** The channel after construction and [startDma]. *)
Definition started (bufferBytes : Z) : Observation :=
  {| channel := startDma {| mTransferQueue := []; mReadyQueue := [];
                            mBufferSize := bufferBytes |};
     accepted := []; popped := [] |}.

(** The buffer region a superpage names. *)
Definition region (sp : Superpage) : Z * Z := (offset sp, size sp).

(** What ties the observations to the two queues: everything accepted
    is, in order and marked as [fillSuperpages] marks it, popped, ready
    or still waiting; and no queue is beyond its capacity. *)
Definition pipeline (o : Observation) : Prop :=
  map fill (accepted o)
  = popped o ++ mReadyQueue (channel o) ++ map fill (mTransferQueue (channel o))
  /\ (length (mTransferQueue (channel o)) <= TRANSFER_QUEUE_SIZE)%nat
  /\ (length (mReadyQueue (channel o)) <= READY_QUEUE_SIZE)%nat.

End Dummy.

(** ** Concrete cards and channels *)

Definition MiB : Z := 1024 * 1024.

(** A whole page of 2048 words has arrived, status [0x82]. *)
Definition arrivedEntry : ReadyFifoEntry := {| length32 := 2048; status := DTSW |}.

(** A card on which every command succeeds and that has filled every
    descriptor each time the driver wakes up; its [RFID] register holds
    reserved 0x2, major 3, minor 0x14, year 2, month 3, day 5. *)
Definition workingCard : Card :=
  {| card_ok := fun _ _ => true;
     diuVersion := fun _ => 1;
     card_dma := fun _ fifo => map (fun _ => arrivedEntry) fifo;
     rfid := Z.lor (Z.shiftl 0x2 24) (Z.lor (Z.shiftl 3 20) (Z.lor (Z.shiftl 0x14 13)
               (Z.lor (Z.shiftl 2 9) (Z.lor (Z.shiftl 3 5) 5)))) |}.

(** A card that refuses to arm its data generator. *)
Definition brokenGeneratorCard : Card :=
  {| card_ok := fun _ c => match c with ArmDataGenerator _ _ _ _ _ => false | _ => true end;
     diuVersion := fun _ => 1;
     card_dma := fun _ fifo => fifo;
     rfid := 0 |}.

Definition defaultConstants : Constants :=
  {| FIFO_QUEUE_MAX := 128;
     TRANSFER_QUEUE_SIZE := 32;
     isExternal := fun m => match m with LB_Siu | LB_Diu => true | _ => false end |}.

Definition noParameters : Parameters :=
  {| getDmaPageSize := None; getGeneratorLoopback := None;
     getGeneratorEnabled := None; getGeneratorPattern := None;
     getGeneratorDataSize := None; getReadoutMode := None |}.

(** Default parameters, a 1 MiB client buffer at user address [0x10000000]
    and bus address [0x20000000]. *)
Definition defaultConfig : Config :=
  construct noParameters 0x30000000 0x10000000 0x20000000 MiB.

(** The members after the constructor: the Ready-FIFO is reset, the queue
    is empty, nothing has been sent to the card. *)
Definition constructed : Channel :=
  {| mFifoBack := 0; mFifoSize := 0; mPendingDmaStart := false;
     mSuperpageQueue := emptyQueue; mDiuConfig := 0;
     readyFifo := replicate (Z.to_nat READYFIFO_ENTRIES) resetEntry;
     cardTrace := []; bufferWrites := [] |}.

Definition firstSuperpage : Superpage :=
  {| offset := 0; size := MiB; received := 0; ready := false |}.

(** The same with a 4 MiB client buffer. *)
Definition bigBufferConfig : Config :=
  construct noParameters 0x30000000 0x10000000 0x20000000 (4 * MiB).

Definition secondSuperpage : Superpage :=
  {| offset := 0; size := 2 * MiB; received := 0; ready := false |}.

(** A 2 MiB superpage half pushed: the channel as the deferred start
    leaves it, the first 128 pages pushed and credited. *)
Definition halfPushed : SuperpageQueueEntry :=
  {| superpage := {| offset := 0; size := 2 * MiB; received := MiB; ready := false |};
     busAddress := 0x20000000; maxPages := 256; pushedPages := 128 |}.

Definition primedChannel : Channel :=
  {| mFifoBack := 0; mFifoSize := 0; mPendingDmaStart := false;
     mSuperpageQueue := {| entries := [halfPushed]; nFilled := 0; nArrivals := 0 |};
     mDiuConfig := 1;
     readyFifo := replicate (Z.to_nat READYFIFO_ENTRIES) resetEntry;
     cardTrace := []; bufferWrites := [] |}.

(** The same superpage fully pushed, its last 128 pages in the ring, and
    the card done with all of them. *)
Definition arrivedChannel : Channel :=
  {| mFifoBack := 0; mFifoSize := 128; mPendingDmaStart := false;
     mSuperpageQueue :=
       {| entries := [set_pushedPages 256 halfPushed]; nFilled := 0; nArrivals := 1 |};
     mDiuConfig := 1;
     readyFifo := replicate (Z.to_nat READYFIFO_ENTRIES) arrivedEntry;
     cardTrace := []; bufferWrites := [] |}.

(** Slot 0 reports status [0x80000082]: DTSW with the error bit. *)
Definition errorEntry : ReadyFifoEntry :=
  {| length32 := 2048; status := i32 0x80000082 |}.

Definition faultyChannel : Channel :=
  set_readyFifo (errorEntry :: replicate 127 resetEntry) arrivedChannel.

(** Slot 0 reports a status word that means nothing. *)
Definition garbledChannel : Channel :=
  set_readyFifo ({| length32 := 2048; status := 0x55 |} :: replicate 127 resetEntry)
    arrivedChannel.

Definition thirdSuperpage : Superpage :=
  {| offset := 0; size := 3 * MiB; received := 0; ready := false |}.

(** ** Channel paths ([ChannelPaths.cxx]) *)

Module ChannelPaths.

Definition DIR_SHAREDMEM : string := "/dev/shm/".

(** The members: the PCI address, held as the text [PciAddress::toString]
    gives (the class is not part of the sources at hand), and the channel
    number. *)
Record ChannelPaths : Type := mkChannelPaths {
  mPciAddress : string;
  mChannel : Z
}.

(** [%i] of [boost::format]: a signed decimal number. *)
Definition show_int (z : Z) : string := NilEmpty.string_of_int (Z.to_int z).

(** [boost::format("%s/AliceO2_RoC_%s_Channel_%i%s") % directory
    % mPciAddress.toString() % mChannel % fileName] *)
Definition makePath (p : ChannelPaths) (fileName directory : string) : string :=
  (directory ++ "/AliceO2_RoC_" ++ mPciAddress p ++ "_Channel_"
   ++ show_int (mChannel p) ++ fileName)%string.

Definition lock (p : ChannelPaths) : string := makePath p ".lock" DIR_SHAREDMEM.

Definition fifo (p : ChannelPaths) : string := makePath p "_fifo" DIR_SHAREDMEM.

Definition namedMutex (p : ChannelPaths) : string :=
  ("AliceO2_RoC_" ++ mPciAddress p ++ "_Channel_" ++ show_int (mChannel p)
   ++ "_Mutex")%string.

End ChannelPaths.

(** ** Vocabulary of the properties *)

(** The descriptor pushes among the commands sent to the card. *)
Definition pushes (t : list CardCmd) : list CardCmd :=
  List.filter isPushRxFreeFifo t.

(** A card that accepts every command, and a card that leaves the
    Ready-FIFO its 128 slots. *)
Definition accepts_all (card : Card) : Prop :=
  forall h c, card_ok h c = true.
Definition keeps_length (card : Card) : Prop :=
  forall h f, length (card_dma h f) = length f.

(** [s'] differs from [s] at most in the Ready-FIFO and in the record of
    the commands sent. *)
Definition same_engine (s s' : Channel) : Prop :=
  mFifoBack s' = mFifoBack s
  /\ mFifoSize s' = mFifoSize s
  /\ mPendingDmaStart s' = mPendingDmaStart s
  /\ mSuperpageQueue s' = mSuperpageQueue s
  /\ mDiuConfig s' = mDiuConfig s
  /\ bufferWrites s' = bufferWrites s.

(** ... and no descriptor was pushed, and the Ready-FIFO kept its length
    if the card keeps it. *)
Definition quiet {card : Card} (s s' : Channel) : Prop :=
  same_engine s s'
  /\ pushes (cardTrace s') = pushes (cardTrace s)
  /\ (keeps_length card -> length (readyFifo s') = length (readyFifo s)).

(** A computation that only talks to the card: it never aborts, it throws
    only when the card refuses a command, and it is [quiet]. *)
Definition hw_only {card : Card} {A} (m : M A) : Prop :=
  forall s, match m s with
            | Ok _ s' => quiet s s'
            | Throw _ s' => ~ accepts_all card /\ quiet s s'
            | Abort => False
            end.

(** The ring budget. *)
Definition ring_bounded {consts : Constants} (s : Channel) : Prop :=
  0 <= mFifoSize s <= FIFO_QUEUE_MAX.

(** A computation that keeps a property of the state, whether it returns
    or throws. *)
Definition keeps (P : Channel -> Prop) {A} (m : M A) : Prop :=
  forall s, P s -> match m s with
                   | Ok _ s' => P s'
                   | Throw _ s' => P s'
                   | Abort => True
                   end.

(** The operations of the public interface, and a client that goes on
    after an exception. *)
Inductive Operation : Type :=
| StartDma
| FillSuperpages
| PushSuperpage (sp : Superpage)
| PopSuperpage
| StopDma.

Definition perform {card : Card} {consts : Constants} {cfg : Config}
    (op : Operation) : M unit :=
  (match op with
   | StartDma => deviceStartDma
   | FillSuperpages => fillSuperpages
   | PushSuperpage sp => pushSuperpage sp
   | PopSuperpage => _ <- popSuperpage ;; ret tt
   | StopDma => deviceStopDma
   end)%crorc.

Fixpoint after {card : Card} {consts : Constants} {cfg : Config}
    (ops : list Operation) (s : Channel) : option Channel :=
  match ops with
  | [] => Some s
  | op :: ops' =>
      match final_state (perform op s) with
      | Some s' => after ops' s'
      | None => None
      end
  end.

(** The commands [deviceStopDma] sends, in order, when the card accepts
    them, given the DIU configuration of the channel. *)
Definition stopCommands {cfg : Config} (diu : DiuConfig) : list CardCmd :=
  if mGeneratorEnabled then
    (if LoopbackMode_eqb LB_None mLoopbackMode then [StartTrigger diu] else [])
    ++ [ArmDataGenerator mGeneratorInitialValue mGeneratorInitialWord
          mGeneratorPattern mGeneratorDataSize mGeneratorSeed]
    ++ (if LoopbackMode_eqb LB_Internal mLoopbackMode then [SetLoopbackOn] else [])
    ++ (if LoopbackMode_eqb LB_Siu mLoopbackMode
        then [SetSiuLoopback diu; AssertLinkUp; SiuCommandRandCIFST;
              DiuCommandRandCIFST]
        else [])
    ++ [StartDataGenerator mGeneratorMaximumEvents; StopDataGenerator;
        StopDataReceiver]
  else if negb mNoRDYRX then [StopTrigger diu]
  else [].

(** A computation that leaves [mFifoSize] alone. *)
Definition size_fixed {A} (m : M A) : Prop :=
  forall s, match m s with
            | Ok _ s' => mFifoSize s' = mFifoSize s
            | Throw _ s' => mFifoSize s' = mFifoSize s
            | Abort => True
            end.

(** The page pushed when [pushed] pages of an entry at bus address [bus]
    are pushed already and the ring, whose oldest slot is [back], holds
    [held] descriptors. *)
Definition pushCommand {cfg : Config} (bus back pushed held : Z) : CardCmd :=
  PushRxFreeFifo (u64 (bus + u64 (mPageSize * pushed))) (mPageSize / 4)
    ((back + held) mod READYFIFO_ENTRIES).

(** [s'] is [s] after [n] pages of the entry [e], referred to by [r], were
    pushed with the commands [cmds]; the Ready-FIFO apart. *)
Definition pushed_from (r : nat) (e : SuperpageQueueEntry) (n : Z)
    (cmds : list CardCmd) (s s' : Channel) : Prop :=
  mFifoSize s' = mFifoSize s + n
  /\ mFifoBack s' = mFifoBack s
  /\ mPendingDmaStart s' = mPendingDmaStart s
  /\ mDiuConfig s' = mDiuConfig s
  /\ bufferWrites s' = bufferWrites s
  /\ nFilled (mSuperpageQueue s') = nFilled (mSuperpageQueue s)
  /\ nArrivals (mSuperpageQueue s') = nArrivals (mSuperpageQueue s)
  /\ entries (mSuperpageQueue s')
     = <[r := set_pushedPages (pushedPages e + n) e]> (entries (mSuperpageQueue s))
  /\ cardTrace s' = cardTrace s ++ cmds.

(** A card that accepts every descriptor push. *)
Definition accepts_pushes (card : Card) : Prop :=
  forall h a w i, card_ok h (PushRxFreeFifo a w i) = true.

(** The status words [dataArrived] answers without throwing. *)
Definition recognised (f : ReadyFifoEntry) : bool :=
  (status f =? -1) || (status f =? 0)
  || ((Z.land (status f) 0xff =? DTSW)
      && (Z.land (status f) (i32 (Z.shiftl 1 31)) =? 0)).

(** A card that leaves a recognised status in the last slot of the ring
    whenever the driver wakes up. *)
Definition reports_recognised (card : Card) : Prop :=
  forall h l f,
    card_dma h l !! Z.to_nat (READYFIFO_ENTRIES - 1) = Some f ->
    recognised f = true.

(** Where the deferred start stands: [s] against the state [s0] it began
    in, with the queue [q], [held] descriptors in the ring and the pushes
    [cmds] sent so far. *)
Definition stage (s0 s : Channel) (q : SuperpageQueue) (held : Z)
    (pending : bool) (cmds : list CardCmd) : Prop :=
  mFifoBack s = 0
  /\ mFifoSize s = held
  /\ mPendingDmaStart s = pending
  /\ mSuperpageQueue s = q
  /\ bufferWrites s = bufferWrites s0
  /\ pushes (cardTrace s) = pushes (cardTrace s0) ++ cmds
  /\ length (readyFifo s) = length (readyFifo s0).

(** An outcome that is no return: the process is aborted (a failed
    [assert]), or an exception is thrown that only a card refusing a
    command can cause. *)
Definition stuck {card : Card} {A} (r : outcome A) : Prop :=
  match r with
  | Ok _ _ => False
  | Throw _ _ => ~ accepts_all card
  | Abort => True
  end.

(** The indices of the engine stay inside what they index: [mFifoBack]
    inside the ring, the Ready-FIFO at its 128 slots, the two boundaries of
    the superpage queue inside its entries. *)
Definition in_range (s : Channel) : Prop :=
  0 <= mFifoBack s < READYFIFO_ENTRIES
  /\ length (readyFifo s) = Z.to_nat READYFIFO_ENTRIES
  /\ (nFilled (mSuperpageQueue s) + nArrivals (mSuperpageQueue s)
      <= length (entries (mSuperpageQueue s)))%nat.

(** * Properties *)

(** ** Machine arithmetic *)

Lemma u64_small (z : Z) : 0 <= z < 2 ^ 64 -> u64 z = z.
Proof. intros H. unfold u64. apply Z.mod_small. exact H. Qed.

Lemma u32_small (z : Z) : 0 <= z < 2 ^ 32 -> u32 z = z.
Proof. intros H. unfold u32. apply Z.mod_small. exact H. Qed.

Lemma u32_range (z : Z) : 0 <= u32 z < 2 ^ 32.
Proof. unfold u32. apply Z.mod_pos_bound. reflexivity. Qed.

(** The test [(status & (1 << 31)) != 0] of [dataArrived] on an [int32_t]:
    it reads bit 31, the sign. *)
Lemma error_bit_clear (x : Z) :
  0 <= x < 2 ^ 31 -> Z.land x (i32 (Z.shiftl 1 31)) = 0.
Proof.
  intros H. change (i32 (Z.shiftl 1 31)) with (Z.shiftl (-1) 31).
  apply Z.bits_inj'. intros n Hn. rewrite Z.land_spec, Z.bits_0.
  destruct (Z.ltb_spec n 31).
  - rewrite Z.shiftl_spec_low; [apply andb_false_r | lia].
  - destruct (Z.eqb_spec x 0); [subst; rewrite Z.bits_0; reflexivity |].
    rewrite (Z.bits_above_log2 x n); [reflexivity | lia |].
    assert (Z.log2 x < 31) by (apply Z.log2_lt_pow2; lia). lia.
Qed.

Lemma error_bit_set (x : Z) : x < 0 -> Z.land x (i32 (Z.shiftl 1 31)) <> 0.
Proof.
  intros H. change (i32 (Z.shiftl 1 31)) with (-2147483648).
  assert (Z.land x (-2147483648) < 0) by (apply Z.land_neg; lia). lia.
Qed.

Lemma int32_bit31 (x : Z) : - 2 ^ 31 <= x < 2 ^ 31 -> Z.testbit x 31 = (x <? 0).
Proof.
  intros H. destruct (Z.ltb_spec x 0).
  - rewrite Z.bits_above_log2_neg; try lia.
    assert (Z.log2 (Z.pred (- x)) < 31); [| lia].
    destruct (Z.eqb_spec x (-1)); [subst; simpl; lia |].
    apply Z.log2_lt_pow2; lia.
  - destruct (Z.eqb_spec x 0); [subst; reflexivity |].
    apply Z.bits_above_log2; [lia |].
    assert (Z.log2 x < 31) by (apply Z.log2_lt_pow2; lia). lia.
Qed.

Lemma getBits_div_mod (x lsb msb : Z) :
  0 <= lsb <= msb ->
  getBits x lsb msb = (x / 2 ^ lsb) mod 2 ^ (msb - lsb + 1).
Proof.
  intros H. unfold getBits.
  rewrite Z.land_ones by lia. rewrite Z.shiftr_div_pow2 by lia. reflexivity.
Qed.

(** ** Firmware version *)

(** C9 (as amended). [getFirmwareInfo] reads register [RFID]; it throws
    [CrorcException] when bits 24..31 differ from [0x2], and otherwise
    returns ["major.minor:year-month-day"] with major = bits 20..23,
    minor = bits 13..19, year = bits 9..12 plus 2000, month = bits 5..8 and
    day = bits 0..4; no member changes. For the register value with
    reserved 0x2, major 3, minor 0x14, year 2, month 3, day 5 the string is
    ["3.20:2002-3-5"]. *)
Theorem getFirmwareInfo_decodes :
  (forall (card : Card) (s : Channel),
     let v := u32 rfid in
     getFirmwareInfo s =
       if (v / 2 ^ 24) mod 2 ^ 8 =? 2 then
         Ok (Some (show_uint ((v / 2 ^ 20) mod 2 ^ 4) ++ "."
                   ++ show_uint ((v / 2 ^ 13) mod 2 ^ 7) ++ ":"
                   ++ show_uint ((v / 2 ^ 9) mod 2 ^ 4 + 2000) ++ "-"
                   ++ show_uint ((v / 2 ^ 5) mod 2 ^ 4) ++ "-"
                   ++ show_uint (v mod 2 ^ 5))%string) s
       else
         Throw (CrorcException
                  "Static field of version register did not equal 0x2") s)
  /\ (forall s : Channel,
        @rfid workingCard = 0x02 * 2 ^ 24 + 3 * 2 ^ 20 + 0x14 * 2 ^ 13
                            + 2 * 2 ^ 9 + 3 * 2 ^ 5 + 5
        /\ @getFirmwareInfo workingCard s = Ok (Some "3.20:2002-3-5"%string) s).
Proof.
  split.
  - intros card s v. unfold getFirmwareInfo. fold v.
    rewrite !getBits_div_mod by lia.
    change (31 - 24 + 1) with 8. change (23 - 20 + 1) with 4.
    change (19 - 13 + 1) with 7. change (12 - 9 + 1) with 4.
    change (8 - 5 + 1) with 4. change (4 - 0 + 1) with 5.
    rewrite (Z.div_1_r v : v / 2 ^ 0 = v).
    assert (Hy : u32 ((v / 2 ^ 9) mod 2 ^ 4 + 2000) = (v / 2 ^ 9) mod 2 ^ 4 + 2000).
    { apply u32_small.
      pose proof (Z.mod_pos_bound (v / 2 ^ 9) (2 ^ 4) eq_refl). lia. }
    rewrite Hy.
    destruct ((v / 2 ^ 24) mod 2 ^ 8 =? 2); reflexivity.
  - intros s. split; reflexivity.
Qed.

(** C9, the example as the claim has it: the register value with year
    field 2 does not give ["3.20:2020-3-5"]; no register value does, a
    4-bit year field gives at most 2015. *)
Lemma getFirmwareInfo_not_2020 :
  @rfid workingCard = 0x02 * 2 ^ 24 + 3 * 2 ^ 20 + 0x14 * 2 ^ 13
                      + 2 * 2 ^ 9 + 3 * 2 ^ 5 + 5
  /\ @getFirmwareInfo workingCard constructed
     = Ok (Some "3.20:2002-3-5"%string) constructed
  /\ @getFirmwareInfo workingCard constructed
     <> Ok (Some "3.20:2020-3-5"%string) constructed.
Proof.
  split; [reflexivity |]. split; [reflexivity |].
  intros H. discriminate H.
Qed.

(** ** Order preservation on the dummy channel *)

Module DummyFacts.
Import Dummy.

Lemma push_back_room {A} (capacity : nat) (x : A) (l : list A) :
  (length l < capacity)%nat -> push_back capacity x l = l ++ [x].
Proof.
  intros H. unfold push_back.
  destruct (Nat.ltb_spec (length l) capacity); [reflexivity | lia].
Qed.

Lemma fillLoop_pipeline (n : nat) (c : DummyDmaChannel) :
  (length (mReadyQueue c) <= READY_QUEUE_SIZE)%nat ->
  let c' := fillLoop n c in
  mReadyQueue c' ++ map fill (mTransferQueue c')
  = mReadyQueue c ++ map fill (mTransferQueue c)
  /\ (length (mTransferQueue c') <= length (mTransferQueue c))%nat
  /\ (length (mReadyQueue c') <= READY_QUEUE_SIZE)%nat.
Proof.
  revert c. induction n as [| n IH]; intros c Hready; simpl.
  - auto.
  - unfold full. destruct (Nat.eqb_spec (length (mReadyQueue c)) READY_QUEUE_SIZE).
    + auto.
    + destruct (mTransferQueue c) as [| front rest] eqn:Hq.
      * rewrite Hq. auto.
      * rewrite push_back_room by lia.
        match goal with |- context [fillLoop n ?c0] => specialize (IH c0) end.
        simpl in IH. rewrite length_app in IH. simpl in IH.
        destruct IH as (IH1 & IH2 & IH3); [lia |].
        rewrite IH1, <- app_assoc. simpl. repeat split; auto with arith.
Qed.

Lemma call_pipeline (o : Observation) (k : Call) :
  pipeline o -> pipeline (call o k).
Proof.
  intros (Hseq & Htransfer & Hready). destruct k as [sp | |]; simpl.
  - unfold pushSuperpage, getTransferQueueAvailable.
    destruct (Z.eqb_spec (Z.of_nat TRANSFER_QUEUE_SIZE
                          - Z.of_nat (length (mTransferQueue (channel o)))) 0);
      [split; auto |].
    repeat (match goal with
            | |- context [if ?b then _ else _] => destruct b
            end; [split; auto |]).
    unfold pipeline; simpl. rewrite push_back_room by lia.
    rewrite !map_app, Hseq, length_app. simpl.
    rewrite <- !app_assoc. repeat split; auto; lia.
  - unfold fillSuperpages.
    destruct (fillLoop_pipeline (length (mTransferQueue (channel o)))
                (channel o) Hready) as (H1 & H2 & H3).
    unfold pipeline; simpl. rewrite H1. repeat split; auto; lia.
  - unfold popSuperpage.
    destruct (mReadyQueue (channel o)) as [| sp rest] eqn:Hq.
    + unfold pipeline. rewrite Hq. auto.
    + unfold pipeline; simpl. rewrite Hseq, <- app_assoc. simpl in *.
      repeat split; auto; lia.
Qed.

Lemma run_pipeline (calls : list Call) (o : Observation) :
  pipeline o -> pipeline (run calls o).
Proof.
  revert o. induction calls as [| k calls IH]; intros o H; simpl; [exact H |].
  apply IH, call_pipeline, H.
Qed.

Lemma region_fill (sp : Superpage) : region (fill sp) = region sp.
Proof. reflexivity. Qed.


End DummyFacts.

(** ** Computations that only talk to the card *)

Section HardwareBasics.
Context {card : Card}.
Local Open Scope crorc_scope.

Lemma same_engine_refl (s : Channel) : same_engine s s.
Proof. unfold same_engine. tauto. Qed.

Lemma quiet_refl (s : Channel) : quiet s s.
Proof. split; [apply same_engine_refl | auto]. Qed.

Lemma quiet_trans (s1 s2 s3 : Channel) : quiet s1 s2 -> quiet s2 s3 -> quiet s1 s3.
Proof.
  unfold quiet, same_engine.
  intros (H1 & H2 & H3) (K1 & K2 & K3).
  repeat split; try (intros Hk; specialize (H3 Hk); specialize (K3 Hk));
    intuition congruence.
Qed.

Lemma hw_only_ret {A} (a : A) : hw_only (ret a).
Proof. intros s. apply quiet_refl. Qed.

Lemma hw_only_bind {A B} (m : M A) (k : A -> M B) :
  hw_only m -> (forall a, hw_only (k a)) -> hw_only (bind m k).
Proof.
  intros Hm Hk s. unfold bind. specialize (Hm s).
  destruct (m s) as [a s1 | e s1 |]; [| exact Hm | exact Hm].
  specialize (Hk a s1). destruct (k a s1) as [b s2 | e s2 |].
  - eapply quiet_trans; eassumption.
  - split; [tauto |]. eapply quiet_trans; [eassumption | tauto].
  - exact Hk.
Qed.

Lemma hw_only_get {A} (k : Channel -> M A) :
  (forall s0, hw_only (k s0)) -> hw_only (bind get k).
Proof. intros H s. unfold bind, get. apply H. Qed.

Lemma hw_only_when (b : bool) (m : M unit) :
  hw_only m -> hw_only (when b then m).
Proof. intros H. destruct b; [exact H | apply hw_only_ret]. Qed.

Lemma hw_only_crorc (c : CardCmd) : isPushRxFreeFifo c = false -> hw_only (crorc c).
Proof.
  intros Hc s. unfold crorc.
  assert (Hq : quiet s (set_cardTrace (cardTrace s ++ [c]) s)).
  { split; [unfold same_engine; simpl; tauto |]. split; [| auto].
    simpl. unfold pushes. rewrite List.filter_app. simpl. rewrite Hc.
    apply app_nil_r. }
  destruct (card_ok (cardTrace s) c) eqn:Hok; [exact Hq |].
  split; [| exact Hq]. intros Hall. rewrite Hall in Hok. discriminate.
Qed.

Lemma hw_only_sleep_for : hw_only sleep_for.
Proof.
  intros s. unfold sleep_for, modify.
  split; [unfold same_engine; simpl; tauto |]. split; [reflexivity |].
  intros Hk. simpl. apply Hk.
Qed.

Lemma hw_only_rethrow {A} (m : M A) (f : Exception -> Exception) :
  hw_only m -> hw_only (try_catch m (fun e => throw (f e))).
Proof.
  intros H s. unfold try_catch, throw. specialize (H s).
  destruct (m s); exact H.
Qed.

Lemma hw_only_initDiuVersion : hw_only initDiuVersion.
Proof.
  unfold initDiuVersion. apply hw_only_bind; [apply hw_only_crorc; reflexivity |].
  intros _ s. apply quiet_refl.
Qed.

End HardwareBasics.

(** The rules are chosen by the shape of the computation. *)
Ltac hw_step :=
  lazymatch goal with
  | |- hw_only (ret _) => apply hw_only_ret
  | |- hw_only sleep_for => apply hw_only_sleep_for
  | |- hw_only initDiuVersion => apply hw_only_initDiuVersion
  | |- hw_only (crorc _) => apply hw_only_crorc; reflexivity
  | |- hw_only (try_catch _ _) => apply hw_only_rethrow
  | |- hw_only (bind get _) => apply hw_only_get; intros ?
  | |- hw_only (bind _ _) => apply hw_only_bind; [| intros ?]
  | |- hw_only (if _ then _ else ret tt) => apply hw_only_when
  | |- hw_only (if ?b then _ else _) => destruct b
  end.

Section HardwareOnly.
Context {card : Card} {consts : Constants} {cfg : Config}.
Local Open Scope crorc_scope.

Lemma hw_only_deviceResetChannel (resetLevel : ResetLevel) :
  hw_only (deviceResetChannel resetLevel).
Proof. unfold deviceResetChannel. repeat hw_step. Qed.

Lemma hw_only_startDataGenerator : hw_only startDataGenerator.
Proof. unfold startDataGenerator. repeat hw_step. Qed.

Lemma hw_only_startDataReceiving : hw_only startDataReceiving.
Proof.
  unfold startDataReceiving.
  repeat first [apply hw_only_deviceResetChannel | hw_step].
Qed.

Lemma hw_only_deviceStopDma : hw_only deviceStopDma.
Proof.
  unfold deviceStopDma.
  repeat first [apply hw_only_startDataGenerator | hw_step].
Qed.

(** With the generator disabled and [mNoRDYRX] set, as the constructor
    sets it, [deviceStopDma] does nothing. *)
Lemma deviceStopDma_idle (s : Channel) :
  mGeneratorEnabled = false -> mNoRDYRX = true -> deviceStopDma s = Ok tt s.
Proof. intros Hg Hn. unfold deviceStopDma. rewrite Hg, Hn. reflexivity. Qed.

Lemma hw_only_runs {A} (m : M A) (s : Channel) :
  hw_only m -> accepts_all card -> exists a s', m s = Ok a s' /\ quiet s s'.
Proof.
  intros H Hall. specialize (H s). destruct (m s) as [a s' | e s' |].
  - eauto.
  - tauto.
  - contradiction.
Qed.

End HardwareOnly.

(** ** Stopping *)

Section Stop.
Context {card : Card} {cfg : Config}.
Local Open Scope crorc_scope.

Lemma crorc_accepted (c : CardCmd) (s : Channel) :
  accepts_all card -> crorc c s = Ok tt (set_cardTrace (cardTrace s ++ [c]) s).
Proof. intros H. unfold crorc. rewrite H. reflexivity. Qed.

Lemma deviceStopDma_commands (s : Channel) :
  accepts_all card ->
  exists s', deviceStopDma s = Ok tt s'
             /\ cardTrace s' = cardTrace s ++ stopCommands (mDiuConfig s)
             /\ mDiuConfig s' = mDiuConfig s.
Proof.
  intros Hall. unfold deviceStopDma, stopCommands, startDataGenerator.
  destruct mGeneratorEnabled; [| destruct mNoRDYRX];
    destruct mLoopbackMode; simpl;
    unfold bind, get, sleep_for, modify, ret; simpl;
    repeat (rewrite crorc_accepted by exact Hall; simpl);
    eexists; (split; [reflexivity |]); simpl;
    rewrite <- ?app_assoc; simpl; auto using app_nil_r.
Qed.



End Stop.





(** ** Pushing a superpage *)

Section Push.
Context {consts : Constants} {cfg : Config}.
Local Open Scope crorc_scope.

(** C10. When [pushSuperpage] accepts a superpage, the entry it appends to
    the queue has [received = 0] (and the offset, size and ready flag of
    the superpage pushed, nothing pushed yet), whatever [received] the
    caller had put in; the call, and so everything any later computation
    returns or leaves behind, is the same for every [received] the caller
    could have passed. *)
Theorem pushSuperpage_resets_received (sp : Superpage) (s s' : Channel) :
  pushSuperpage sp s = Ok tt s' ->
  (exists e,
     entries (mSuperpageQueue s') = entries (mSuperpageQueue s) ++ [e]
     /\ superpage e = {| offset := offset sp; size := size sp;
                         received := 0; ready := ready sp |}
     /\ pushedPages e = 0)
  /\ (forall r, pushSuperpage (set_received r sp) s = Ok tt s')
  /\ (forall r A (later : M A),
        (pushSuperpage (set_received r sp) ;;; later) s
        = (pushSuperpage sp ;;; later) s).
Proof.
  intros H.
  assert (Hr : forall r, pushSuperpage (set_received r sp) s = pushSuperpage sp s)
    by reflexivity.
  split; [| split].
  - revert H. unfold pushSuperpage, checkSuperpage, addToQueue, bind, getQueue,
      setQueue, modify, throw, ret, abort.
    repeat match goal with
           | |- context [if ?b then _ else _] => destruct b; simpl; try discriminate
           end.
    intros H. injection H as <-. simpl. eexists. split; [reflexivity |].
    split; reflexivity.
  - intros r. rewrite Hr. exact H.
  - intros r A later. unfold bind. rewrite Hr. reflexivity.
Qed.

End Push.

Lemma pushSuperpage_resets_received_witness :
  (exists e,
     entries (mSuperpageQueue
                (set_mSuperpageQueue
                   {| entries := [ {| superpage := firstSuperpage;
                                      busAddress := 0x20000000;
                                      maxPages := 128; pushedPages := 0 |} ];
                      nFilled := 0; nArrivals := 0 |} constructed))
     = entries (mSuperpageQueue constructed) ++ [e]
     /\ superpage e = {| offset := 0; size := MiB; received := 0; ready := false |}
     /\ pushedPages e = 0)
  /\ (forall r,
        @pushSuperpage defaultConstants defaultConfig
          (set_received r (set_received 4096 firstSuperpage)) constructed
        = Ok tt (set_mSuperpageQueue
                   {| entries := [ {| superpage := firstSuperpage;
                                      busAddress := 0x20000000;
                                      maxPages := 128; pushedPages := 0 |} ];
                      nFilled := 0; nArrivals := 0 |} constructed))
  /\ (forall r A (later : M A),
        (@pushSuperpage defaultConstants defaultConfig
           (set_received r (set_received 4096 firstSuperpage)) ;;; later)%crorc
          constructed
        = (@pushSuperpage defaultConstants defaultConfig
             (set_received 4096 firstSuperpage) ;;; later)%crorc constructed).
Proof.
  apply (@pushSuperpage_resets_received defaultConstants defaultConfig
           (set_received 4096 firstSuperpage) constructed).
  reflexivity.
Defined.

(** ** The ring budget *)

Section RingBudget.
Context {card : Card} {consts : Constants} {cfg : Config}.
Hypothesis budget : 0 <= FIFO_QUEUE_MAX <= READYFIFO_ENTRIES.
Local Open Scope crorc_scope.

Lemma keeps_ret (P : Channel -> Prop) {A} (a : A) : keeps P (ret a).
Proof. intros s H. exact H. Qed.

Lemma keeps_bind (P : Channel -> Prop) {A B} (m : M A) (k : A -> M B) :
  keeps P m -> (forall a, keeps P (k a)) -> keeps P (bind m k).
Proof.
  intros Hm Hk s H. unfold bind. specialize (Hm s H).
  destruct (m s) as [a s1 | e s1 |]; auto. apply Hk, Hm.
Qed.

Lemma keeps_when (P : Channel -> Prop) (b : bool) (m : M unit) :
  keeps P m -> keeps P (when b then m).
Proof. intros H. destruct b; [exact H | apply keeps_ret]. Qed.

Lemma keeps_for_loop (P : Channel -> Prop) (body : Z -> M unit) (n : nat) :
  (forall i, keeps P (body i)) -> forall from, keeps P (for_loop n from body).
Proof.
  intros Hb. induction n as [| n IH]; intros from; simpl.
  - apply keeps_ret.
  - apply keeps_bind; [apply Hb | intros _; apply IH].
Qed.

Lemma size_fixed_keeps {A} (m : M A) : size_fixed m -> keeps ring_bounded m.
Proof.
  intros Hm s H. specialize (Hm s). unfold ring_bounded in *.
  destruct (m s); try rewrite Hm; auto.
Qed.

Lemma hw_only_size_fixed {A} (m : M A) : hw_only m -> size_fixed m.
Proof.
  intros Hm s. specialize (Hm s). unfold quiet, same_engine in Hm.
  destruct (m s); tauto.
Qed.

(** Leaf computations are settled by running through their branches. *)
Ltac branches :=
  intros; simpl;
  repeat (case_match; simplify_eq; simpl in *); simpl; auto.

Lemma size_fixed_queue_ops :
  size_fixed getQueue
  /\ (forall e, size_fixed (addToQueue e))
  /\ size_fixed removeFromPushingQueue
  /\ size_fixed moveFromArrivalsToFilledQueue
  /\ size_fixed removeFromFilledQueue
  /\ size_fixed getPushingFrontEntry
  /\ size_fixed getArrivalsFrontEntry
  /\ (forall r, size_fixed (deref r))
  /\ (forall r f, size_fixed (update r f)).
Proof.
  unfold size_fixed, getQueue, addToQueue, removeFromPushingQueue,
    moveFromArrivalsToFilledQueue, removeFromFilledQueue, getPushingFrontEntry,
    getArrivalsFrontEntry, deref, update, setQueue, bind, modify, throw, ret.
  repeat split; branches.
Qed.

Lemma size_fixed_fifo_ops :
  (forall i, size_fixed (fifoEntry i))
  /\ (forall i, size_fixed (resetDescriptor i))
  /\ size_fixed resetReadyFifo
  /\ (forall i, size_fixed (dataArrived i))
  /\ (forall a v, size_fixed (writeSdhEventSize a v)).
Proof.
  unfold size_fixed, dataArrived, fifoEntry, resetDescriptor, resetReadyFifo,
    writeSdhEventSize, bind, modify, throw, ret.
  repeat split; branches.
Qed.

Lemma keeps_pushIntoSuperpage (entry : nat) :
  keeps ring_bounded (pushIntoSuperpage entry).
Proof.
  unfold keeps, ring_bounded, pushIntoSuperpage, pushFreeFifoPage, crorc, deref,
    update, assert, bind, get, modify, abort, ret.
  intros s H. simpl.
  repeat (case_match; simplify_eq; simpl in *); simpl; auto; lia.
Qed.

Lemma keeps_deviceStartDma : keeps ring_bounded deviceStartDma.
Proof. intros s _. unfold ring_bounded. simpl. lia. Qed.

Lemma keeps_pushSuperpage (sp : Superpage) : keeps ring_bounded (pushSuperpage sp).
Proof.
  apply size_fixed_keeps.
  unfold size_fixed, pushSuperpage, checkSuperpage, addToQueue, getQueue, setQueue,
    bind, modify, throw, abort, ret.
  branches.
Qed.

Lemma keeps_popSuperpage : keeps ring_bounded popSuperpage.
Proof.
  apply size_fixed_keeps.
  unfold size_fixed, popSuperpage, removeFromFilledQueue, getQueue, setQueue,
    bind, modify, throw, ret.
  branches.
Qed.

Lemma keeps_get (P : Channel -> Prop) {A} (k : Channel -> M A) :
  (forall s0, keeps P (k s0)) -> keeps P (bind get k).
Proof. intros H s Hs. unfold bind, get. apply H, Hs. Qed.

Lemma size_fixed_misc :
  (forall b, size_fixed (assert b))
  /\ (forall v, size_fixed (modify (set_mFifoBack v)))
  /\ (forall v, size_fixed (modify (set_mPendingDmaStart v)))
  /\ (forall v, size_fixed (modify (set_mDiuConfig v)))
  /\ (forall A e, size_fixed (@throw A e))
  /\ (forall A, size_fixed (@abort A)).
Proof.
  unfold size_fixed, assert, modify, throw, abort, ret.
  repeat split; branches.
Qed.

Lemma keeps_reset_size : keeps ring_bounded (modify (set_mFifoSize 0)).
Proof. intros s _. unfold ring_bounded. simpl. lia. Qed.

Ltac keeps_step :=
  lazymatch goal with
  | |- keeps _ (ret _) => apply keeps_ret
  | |- keeps _ (pushIntoSuperpage _) => apply keeps_pushIntoSuperpage
  | |- keeps _ (modify (set_mFifoSize 0)) => apply keeps_reset_size
  | |- keeps _ (bind get _) => apply keeps_get; intros ?
  | |- keeps _ (bind _ _) => apply keeps_bind; [| intros ?]
  | |- keeps _ (for_loop _ _ _) => apply keeps_for_loop; intros ?
  | |- keeps _ (if _ then _ else ret tt) => apply keeps_when
  | |- keeps _ (if ?b then _ else _) => destruct b
  | |- keeps _ startDataGenerator =>
      apply size_fixed_keeps, hw_only_size_fixed, hw_only_startDataGenerator
  | |- keeps _ startDataReceiving =>
      apply size_fixed_keeps, hw_only_size_fixed, hw_only_startDataReceiving
  | |- keeps _ (deviceResetChannel _) =>
      apply size_fixed_keeps, hw_only_size_fixed, hw_only_deviceResetChannel
  | |- keeps _ initDiuVersion =>
      apply size_fixed_keeps, hw_only_size_fixed, hw_only_initDiuVersion
  | |- keeps _ sleep_for =>
      apply size_fixed_keeps, hw_only_size_fixed, hw_only_sleep_for
  | |- keeps _ (crorc _) =>
      apply size_fixed_keeps, hw_only_size_fixed, hw_only_crorc; reflexivity
  | |- keeps _ (fifoEntry _) => apply size_fixed_keeps, size_fixed_fifo_ops
  | |- keeps _ (resetDescriptor _) => apply size_fixed_keeps, size_fixed_fifo_ops
  | |- keeps _ resetReadyFifo => apply size_fixed_keeps, size_fixed_fifo_ops
  | |- keeps _ (dataArrived _) => apply size_fixed_keeps, size_fixed_fifo_ops
  | |- keeps _ (writeSdhEventSize _ _) => apply size_fixed_keeps, size_fixed_fifo_ops
  | |- keeps _ (assert _) => apply size_fixed_keeps, size_fixed_misc
  | |- keeps _ (modify (set_mFifoBack _)) => apply size_fixed_keeps, size_fixed_misc
  | |- keeps _ (modify (set_mPendingDmaStart _)) =>
      apply size_fixed_keeps, size_fixed_misc
  | |- keeps _ (modify (set_mDiuConfig _)) => apply size_fixed_keeps, size_fixed_misc
  | |- keeps _ _ => apply size_fixed_keeps, size_fixed_queue_ops
  end.

Ltac keeps_ring := repeat keeps_step.

Lemma keeps_startPendingDma (entry : nat) :
  keeps ring_bounded (startPendingDma entry).
Proof. unfold startPendingDma. keeps_ring. Qed.

Lemma keeps_pushPhase : keeps ring_bounded pushPhase.
Proof.
  unfold pushPhase. keeps_ring. apply keeps_startPendingDma.
Qed.

Lemma arrivalStep_bounded (s : Channel) :
  ring_bounded s -> 0 < mFifoSize s ->
  match arrivalStep s with
  | Ok _ s' => ring_bounded s'
  | Throw _ s' => ring_bounded s'
  | Abort => True
  end.
Proof.
  unfold ring_bounded, arrivalStep, getArrivalsFrontEntry, isArrived, dataArrived,
    harvestPage, fifoEntry, resetDescriptor, writeSdhEventSize, deref, update,
    moveFromArrivalsToFilledQueue, getQueue, setQueue, bind, get, modify, throw,
    ret.
  intros H Hpos. simpl.
  repeat (case_match; simplify_eq; simpl in *); simpl; auto; lia.
Qed.

Lemma keeps_arrivalLoop (fuel : nat) : keeps ring_bounded (arrivalLoop fuel).
Proof.
  induction fuel as [| fuel IH]; intros s H; simpl; [exact H |].
  unfold bind at 1, get. destruct (Z.gtb_spec (mFifoSize s) 0); [| exact H].
  unfold bind. pose proof (arrivalStep_bounded s H ltac:(lia)) as Hstep.
  destruct (arrivalStep s) as [[|] s1 | e s1 |]; auto.
  apply IH, Hstep.
Qed.

Lemma keeps_fillSuperpages : keeps ring_bounded fillSuperpages.
Proof.
  unfold fillSuperpages, arrivalPhase.
  apply keeps_bind; [apply keeps_pushPhase | intros _].
  keeps_ring. apply keeps_arrivalLoop.
Qed.

Lemma keeps_perform (op : Operation) : keeps ring_bounded (perform op).
Proof.
  destruct op; simpl.
  - apply keeps_deviceStartDma.
  - apply keeps_fillSuperpages.
  - apply keeps_pushSuperpage.
  - apply keeps_bind; [apply keeps_popSuperpage | intros _; apply keeps_ret].
  - apply size_fixed_keeps, hw_only_size_fixed, hw_only_deviceStopDma.
Qed.


End RingBudget.


(** ** The three regions of the superpage queue *)

Section QueueViews.
Implicit Types (q : SuperpageQueue) (g : SuperpageQueueEntry -> SuperpageQueueEntry).

Lemma arrivals_front q F rest :
  getArrivals q = F :: rest ->
  entries q !! nFilled q = Some F
  /\ drop (nFilled q) (entries q) = F :: drop (S (nFilled q)) (entries q)
  /\ exists n, nArrivals q = S n
               /\ rest = take n (drop (S (nFilled q)) (entries q)).
Proof.
  unfold getArrivals. intros H.
  destruct (nArrivals q) as [| n]; [discriminate |].
  destruct (drop (nFilled q) (entries q)) as [| x tl] eqn:D; [discriminate |].
  simpl in H. injection H as -> <-.
  assert (L : entries q !! nFilled q = Some F).
  { pose proof (lookup_drop (entries q) (nFilled q) 0) as L.
    rewrite D, Nat.add_0_r in L. symmetry. exact L. }
  pose proof (drop_S _ _ _ L) as D'. rewrite D in D'. injection D' as ->.
  split; [exact L |]. split; [reflexivity |]. exists n. auto.
Qed.

Lemma pushing_front q E rest :
  getPushing q = E :: rest ->
  entries q !! (nFilled q + nArrivals q)%nat = Some E
  /\ rest = drop (S (nFilled q + nArrivals q)%nat) (entries q).
Proof.
  unfold getPushing. intros H.
  assert (L : entries q !! (nFilled q + nArrivals q)%nat = Some E).
  { pose proof (lookup_drop (entries q) (nFilled q + nArrivals q) 0) as L.
    rewrite H, Nat.add_0_r in L. symmetry. exact L. }
  split; [exact L |].
  rewrite (drop_S _ _ _ L) in H. injection H as <-. reflexivity.
Qed.

(** Writing through a reference to the front of Arrivals. *)
Lemma alter_arrivals_front q F rest g :
  getArrivals q = F :: rest ->
  let q' := {| entries := alter g (nFilled q) (entries q);
               nFilled := nFilled q; nArrivals := nArrivals q |} in
  getFilled q' = getFilled q
  /\ getArrivals q' = g F :: rest
  /\ getPushing q' = getPushing q.
Proof.
  intros H. destruct (arrivals_front q F rest H) as (L & D & n & Hn & ->).
  unfold getFilled, getArrivals, getPushing. simpl.
  split; [apply take_alter_ge; lia |]. split.
  - rewrite drop_alter_ge by lia. rewrite Nat.sub_diag, D, Hn. reflexivity.
  - apply drop_alter_lt. lia.
Qed.

(** [moveFromArrivalsToFilledQueue] on the regions. *)
Lemma move_arrivals_front q F rest :
  getArrivals q = F :: rest ->
  let q' := {| entries := entries q;
               nFilled := S (nFilled q); nArrivals := pred (nArrivals q) |} in
  getFilled q' = getFilled q ++ [F]
  /\ getArrivals q' = rest
  /\ getPushing q' = getPushing q.
Proof.
  intros H. destruct (arrivals_front q F rest H) as (L & D & n & Hn & ->).
  unfold getFilled, getArrivals, getPushing. simpl.
  split; [apply take_S_r, L |]. rewrite Hn. simpl. split; [reflexivity |].
  f_equal. lia.
Qed.

(** Writing through a reference to the front of Pushing. *)
Lemma alter_pushing_front q E rest g :
  getPushing q = E :: rest ->
  let q' := {| entries := alter g (nFilled q + nArrivals q)%nat (entries q);
               nFilled := nFilled q; nArrivals := nArrivals q |} in
  getFilled q' = getFilled q
  /\ getArrivals q' = getArrivals q
  /\ getPushing q' = g E :: rest.
Proof.
  intros H. destruct (pushing_front q E rest H) as (L & ->).
  unfold getFilled, getArrivals, getPushing. simpl.
  split; [apply take_alter_ge; lia |]. split.
  - rewrite drop_alter_ge by lia. apply take_alter_ge. lia.
  - rewrite drop_alter_ge by lia. rewrite Nat.sub_diag.
    rewrite (drop_S _ _ _ L). reflexivity.
Qed.

(** [removeFromPushingQueue] on the regions. *)
Lemma remove_pushing_front q E rest :
  getPushing q = E :: rest ->
  let q' := {| entries := entries q;
               nFilled := nFilled q; nArrivals := S (nArrivals q) |} in
  getFilled q' = getFilled q
  /\ getArrivals q' = getArrivals q ++ [E]
  /\ getPushing q' = rest.
Proof.
  intros H. destruct (pushing_front q E rest H) as (L & ->).
  unfold getFilled, getArrivals, getPushing. simpl.
  split; [reflexivity |]. split.
  - apply take_S_r. rewrite lookup_drop. exact L.
  - f_equal. lia.
Qed.

End QueueViews.

(** ** The arrival phase *)

Section Arrival.
Context {card : Card} {consts : Constants} {cfg : Config}.
Local Open Scope crorc_scope.

Lemma fifoEntry_read (i : Z) (s : Channel) (f : ReadyFifoEntry) :
  0 <= i < READYFIFO_ENTRIES ->
  readyFifo s !! Z.to_nat i = Some f ->
  fifoEntry i s = Ok f s.
Proof.
  intros Hi Hf. unfold fifoEntry.
  destruct (Z.leb_spec 0 i); [| lia].
  destruct (Z.ltb_spec i READYFIFO_ENTRIES); [| lia].
  simpl. rewrite Hf. reflexivity.
Qed.

Lemma resetDescriptor_run (i : Z) (s : Channel) :
  0 <= i < READYFIFO_ENTRIES ->
  resetDescriptor i s
  = Ok tt (set_readyFifo (<[Z.to_nat i := resetEntry]> (readyFifo s)) s).
Proof.
  intros Hi. unfold resetDescriptor.
  destruct (Z.leb_spec 0 i); [| lia].
  destruct (Z.ltb_spec i READYFIFO_ENTRIES); [| lia].
  reflexivity.
Qed.

Lemma deref_read (r : nat) (s : Channel) (e : SuperpageQueueEntry) :
  entries (mSuperpageQueue s) !! r = Some e -> deref r s = Ok e s.
Proof. intros H. unfold deref. rewrite H. reflexivity. Qed.

Lemma DTSW_not_idle (x : Z) : Z.land x 0xff = DTSW -> x <> -1 /\ x <> 0.
Proof. intros H. split; intros ->; discriminate H. Qed.

(** What [dataArrived] answers, by the status word of the slot. *)
Lemma dataArrived_cases (i : Z) (s : Channel) (f : ReadyFifoEntry) :
  0 <= i < READYFIFO_ENTRIES ->
  readyFifo s !! Z.to_nat i = Some f ->
  - 2 ^ 31 <= status f < 2 ^ 31 ->
  dataArrived i s =
    if status f =? -1 then Ok NoneArrived s
    else if status f =? 0 then Ok PartArrived s
    else if Z.land (status f) 0xff =? DTSW then
      if Z.testbit (status f) 31 then
        Throw (CrorcDataArrivalException
                 "Data arrival status word contains error bits"
                 (status f) (length32 f) i) s
      else Ok WholeArrived s
    else
      Throw (CrorcDataArrivalException
               "Unrecognized data arrival status word"
               (status f) (length32 f) i) s.
Proof.
  intros Hi Hf Hrange. unfold dataArrived, bind.
  rewrite (fifoEntry_read i s f Hi Hf).
  destruct (status f =? -1); [reflexivity |].
  destruct (status f =? 0); [reflexivity |].
  destruct (Z.land (status f) 255 =? DTSW); [| reflexivity].
  rewrite (int32_bit31 _ Hrange).
  destruct (Z.ltb_spec (status f) 0) as [Hneg | Hpos].
  - destruct (Z.eqb_spec (Z.land (status f) (i32 (Z.shiftl 1 31))) 0) as [E | E];
      [| reflexivity].
    exfalso. exact (error_bit_set _ Hneg E).
  - rewrite error_bit_clear by lia. reflexivity.
Qed.

Lemma getArrivalsFrontEntry_front (s : Channel) F rest :
  getArrivals (mSuperpageQueue s) = F :: rest ->
  getArrivalsFrontEntry s = Ok (nFilled (mSuperpageQueue s)) s.
Proof.
  intros H. unfold getArrivalsFrontEntry, bind, getQueue. rewrite H. reflexivity.
Qed.

(** The arrival phase comes down to the loop, and the loop to its turns. *)
Lemma arrivalPhase_loop (s : Channel) F rest :
  getArrivals (mSuperpageQueue s) = F :: rest ->
  arrivalPhase s = arrivalLoop (Z.to_nat (mFifoSize s)) s.
Proof.
  intros H. unfold arrivalPhase, bind, getQueue. rewrite H. reflexivity.
Qed.

Lemma arrivalLoop_turn (s : Channel) :
  0 < mFifoSize s ->
  arrivalLoop (Z.to_nat (mFifoSize s)) s =
    match arrivalStep s with
    | Ok true s' => arrivalLoop (Z.to_nat (mFifoSize s - 1)) s'
    | Ok false s' => Ok tt s'
    | Throw e s' => Throw e s'
    | Abort => Abort
    end.
Proof.
  intros H. replace (Z.to_nat (mFifoSize s)) with (S (Z.to_nat (mFifoSize s - 1)))
    by lia.
  simpl. unfold bind at 1, get at 1.
  destruct (Z.gtb_spec (mFifoSize s) 0); [| lia].
  unfold bind. destruct (arrivalStep s) as [[|] s' | e s' |]; reflexivity.
Qed.

Section Slot.
Variables (s : Channel) (F : SuperpageQueueEntry) (rest : list SuperpageQueueEntry)
  (f : ReadyFifoEntry).
Hypothesis Harrivals : getArrivals (mSuperpageQueue s) = F :: rest.
Hypothesis Hsize : 0 < mFifoSize s.
Hypothesis Hback : 0 <= mFifoBack s < READYFIFO_ENTRIES.
Hypothesis Hslot : readyFifo s !! Z.to_nat (mFifoBack s) = Some f.
Hypothesis Hword : - 2 ^ 31 <= status f < 2 ^ 31.

Lemma arrivalStep_arrived :
  arrivalStep s =
    match dataArrived (mFifoBack s) s with
    | Ok WholeArrived _ =>
        (harvestPage (nFilled (mSuperpageQueue s)) ;;; ret true) s
    | Ok _ _ => Ok false s
    | Throw e _ => Throw e s
    | Abort => Abort
    end.
Proof.
  unfold arrivalStep. unfold bind at 1.
  rewrite (getArrivalsFrontEntry_front s F rest Harrivals).
  unfold bind at 1, get at 1. unfold bind at 1, isArrived at 1, bind at 1.
  rewrite (dataArrived_cases _ s f Hback Hslot Hword).
  destruct (status f =? -1); [reflexivity |].
  destruct (status f =? 0); [reflexivity |].
  destruct (Z.land (status f) 255 =? DTSW); [| reflexivity].
  destruct (Z.testbit (status f) 31); reflexivity.
Qed.

(** Nothing arrived, or a part only: the loop stops at once. *)
Lemma arrivalPhase_stops :
  status f = -1 \/ status f = 0 ->
  arrivalStep s = Ok false s /\ arrivalPhase s = Ok tt s.
Proof.
  intros H.
  assert (Hstep : arrivalStep s = Ok false s).
  { rewrite arrivalStep_arrived, (dataArrived_cases _ s f Hback Hslot Hword).
    destruct H as [-> | ->]; reflexivity. }
  split; [exact Hstep |].
  rewrite (arrivalPhase_loop s F rest Harrivals), (arrivalLoop_turn s Hsize), Hstep.
  reflexivity.
Qed.

Lemma arrivalPhase_error :
  Z.land (status f) 0xff = DTSW ->
  Z.testbit (status f) 31 = true ->
  let e := CrorcDataArrivalException
             "Data arrival status word contains error bits"
             (status f) (length32 f) (mFifoBack s) in
  arrivalStep s = Throw e s /\ arrivalPhase s = Throw e s.
Proof.
  intros Hd Hbit e.
  destruct (DTSW_not_idle _ Hd) as (N1 & N0).
  assert (Hstep : arrivalStep s = Throw e s).
  { rewrite arrivalStep_arrived, (dataArrived_cases _ s f Hback Hslot Hword).
    destruct (Z.eqb_spec (status f) (-1)); [contradiction |].
    destruct (Z.eqb_spec (status f) 0); [contradiction |].
    rewrite Hd, Hbit. reflexivity. }
  split; [exact Hstep |].
  rewrite (arrivalPhase_loop s F rest Harrivals), (arrivalLoop_turn s Hsize), Hstep.
  reflexivity.
Qed.


Hypothesis Hlength : 0 <= length32 f < 2 ^ 32.
Hypothesis Hbase : 0 <= mDmaBufferUserspace.
Hypothesis Hoffset : 0 <= offset (superpage F).
Hypothesis Hreceived : 0 <= received (superpage F).
Hypothesis Hpage : 0 <= mPageSize.
Hypothesis Hsdh :
  mDmaBufferUserspace + offset (superpage F) + received (superpage F) + 16 + 16
  <= 2 ^ 64.
Hypothesis Hnext : received (superpage F) + mPageSize < 2 ^ 64.

(** C2. In the arrival phase, with Arrivals not empty and [mFifoSize > 0],
    the engine inspects slot [mFifoBack]. If its status is [-1] or [0] the
    loop stops and the phase changes nothing. If [status & 0xff == DTSW]
    and bit 31 is clear, the turn writes the four 32-bit words
    [0, 0, 0, length] from user address
    [buffer_base + offset + received + 16] on, resets the descriptor to
    [{status = -1, length = 0}], decrements [mFifoSize], sets [mFifoBack] to
    [(mFifoBack + 1) mod 128] and adds the page size to the [received] of
    the front of Arrivals, which moves to Filled with [ready = true] exactly
    when [received] has reached [size]; then the loop goes on from there. *)
Theorem arrival_turn :
  (status f = -1 \/ status f = 0 ->
   arrivalStep s = Ok false s /\ arrivalPhase s = Ok tt s)
  /\
  (Z.land (status f) 0xff = DTSW ->
  Z.testbit (status f) 31 = false ->
  let q := mSuperpageQueue s in
  let a := mDmaBufferUserspace + offset (superpage F) + received (superpage F)
           + 16 in
  let F' := set_superpage
              (set_received (received (superpage F) + mPageSize) (superpage F)) F in
  exists s',
    arrivalStep s = Ok true s'
    /\ arrivalPhase s = arrivalLoop (Z.to_nat (mFifoSize s')) s'
    /\ bufferWrites s'
       = bufferWrites s ++ [(a, 0); (a + 4, 0); (a + 8, 0); (a + 12, length32 f)]
    /\ readyFifo s'
       = <[Z.to_nat (mFifoBack s) := {| length32 := 0; status := -1 |}]> (readyFifo s)
    /\ mFifoSize s' = mFifoSize s - 1
    /\ mFifoBack s' = (mFifoBack s + 1) mod 128
    /\ mPendingDmaStart s' = mPendingDmaStart s
    /\ cardTrace s' = cardTrace s
    /\ getPushing (mSuperpageQueue s') = getPushing q
    /\ if received (superpage F) + mPageSize =? size (superpage F)
       then getFilled (mSuperpageQueue s')
            = getFilled q ++ [set_superpage (set_ready true (superpage F')) F']
            /\ getArrivals (mSuperpageQueue s') = rest
       else getFilled (mSuperpageQueue s') = getFilled q
            /\ getArrivals (mSuperpageQueue s') = F' :: rest).
Proof.
  split; [exact arrivalPhase_stops |].
  intros Hd Hbit q a F'. subst q.
  destruct (DTSW_not_idle _ Hd) as (N1 & N0).
  destruct (arrivals_front _ _ _ Harrivals) as (L & _).
  assert (Ha : u64 (u64 (u64 (mDmaBufferUserspace + offset (superpage F))
                         + received (superpage F)) + OFFSET_SDH_EVENT_SIZE) = a).
  { subst a. unfold OFFSET_SDH_EVENT_SIZE.
    rewrite (u64_small (mDmaBufferUserspace + offset (superpage F))) by lia.
    rewrite (u64_small (mDmaBufferUserspace + offset (superpage F)
                        + received (superpage F))) by lia.
    apply u64_small. lia. }
  pose proof (alter_arrivals_front (mSuperpageQueue s) F rest
                (fun e => set_superpage
                   (set_received (u64 (received (superpage e) + mPageSize))
                      (superpage e)) e) Harrivals) as V1.
  simpl in V1. rewrite (u64_small (received (superpage F) + mPageSize)) in V1 by lia.
  fold F' in V1. destruct V1 as (V1f & V1a & V1p).
  assert (Hstep : arrivalStep s
                  = (harvestPage (nFilled (mSuperpageQueue s)) ;;; ret true) s).
  { rewrite arrivalStep_arrived, (dataArrived_cases _ s f Hback Hslot Hword).
    destruct (Z.eqb_spec (status f) (-1)); [contradiction |].
    destruct (Z.eqb_spec (status f) 0); [contradiction |].
    rewrite Hd, Hbit. reflexivity. }
  assert (Hloop : forall s', arrivalStep s = Ok true s' ->
                             mFifoSize s' = mFifoSize s - 1 ->
                             arrivalPhase s = arrivalLoop (Z.to_nat (mFifoSize s')) s').
  { intros s' H1 H2.
    rewrite (arrivalPhase_loop s F rest Harrivals), (arrivalLoop_turn s Hsize), H1, H2.
    reflexivity. }
  revert Hloop. rewrite Hstep.
  unfold harvestPage, bind, get, writeSdhEventSize, modify, update.
  rewrite (fifoEntry_read _ s f Hback Hslot). cbv beta iota.
  rewrite (deref_read _ s F L). cbv beta iota.
  rewrite resetDescriptor_run by exact Hback.
  unfold deref. simpl. rewrite list_lookup_alter_eq, L. simpl.
  rewrite Ha, (u32_small _ Hlength).
  rewrite (u64_small (received (superpage F) + mPageSize)) by lia.
  rewrite !u64_small by lia. fold F'.
  unfold isFilled. simpl.
  destruct (received (superpage F) + mPageSize =? size (superpage F)) eqn:Hfull.
  - pose proof (alter_arrivals_front _ F' rest
                  (fun e => set_superpage (set_ready true (superpage e)) e) V1a) as V2.
    simpl in V2. destruct V2 as (V2f & V2a & V2p).
    pose proof (move_arrivals_front _ _ rest V2a) as V3.
    simpl in V3. destruct V3 as (V3f & V3a & V3p).
    unfold moveFromArrivalsToFilledQueue, bind, getQueue, setQueue, modify, ret.
    simpl. rewrite V2a. simpl. intros Hloop.
    eexists. split; [reflexivity |].
    split; [apply Hloop; reflexivity |]. simpl.
    repeat split; try reflexivity.
    + rewrite V3p, V2p. exact V1p.
    + rewrite V3f, V2f, V1f. reflexivity.
    + exact V3a.
  - unfold ret. intros Hloop.
    eexists. split; [reflexivity |].
    split; [apply Hloop; reflexivity |]. simpl.
    repeat split; try reflexivity; assumption.
Qed.

End Slot.

(** C6. Let the arrival phase find its ring non-empty ([mFifoSize > 0],
    Arrivals not empty) and the descriptor at slot [mFifoBack] with
    [status & 0xff == DTSW] and bit 31 set. Then [fillSuperpages] throws
    [CrorcDataArrivalException] carrying that status, the length of the
    slot and the index [mFifoBack], and the arrival phase has changed
    nothing: the channel is left exactly as the push phase left it (as it
    was before the call, when Pushing is empty), so the front of Arrivals
    is not moved to Filled and [mFifoSize], [mFifoBack] and every
    [received] are as before. *)
Theorem error_descriptor_fails_fill
    (s0 s : Channel) (F : SuperpageQueueEntry) (rest : list SuperpageQueueEntry)
    (f : ReadyFifoEntry) :
  pushPhase s0 = Ok tt s ->
  getArrivals (mSuperpageQueue s) = F :: rest ->
  0 < mFifoSize s ->
  0 <= mFifoBack s < READYFIFO_ENTRIES ->
  readyFifo s !! Z.to_nat (mFifoBack s) = Some f ->
  - 2 ^ 31 <= status f < 2 ^ 31 ->
  Z.land (status f) 0xff = DTSW ->
  Z.testbit (status f) 31 = true ->
  let e := CrorcDataArrivalException
             "Data arrival status word contains error bits"
             (status f) (length32 f) (mFifoBack s) in
  fillSuperpages s0 = Throw e s
  /\ arrivalStep s = Throw e s
  /\ (getPushing (mSuperpageQueue s) = [] -> fillSuperpages s = Throw e s).
Proof.
  intros Hpush Harr Hsize Hback Hslot Hword Hd Hbit e.
  destruct (arrivalPhase_error s F rest f Harr Hsize Hback Hslot Hword Hd Hbit)
    as (Hstep & Hphase).
  split; [| split].
  - unfold fillSuperpages, bind. rewrite Hpush. exact Hphase.
  - exact Hstep.
  - intros Hempty. unfold fillSuperpages, bind.
    assert (Hp : pushPhase s = Ok tt s).
    { unfold pushPhase, bind, getQueue. rewrite Hempty. reflexivity. }
    rewrite Hp. exact Hphase.
Qed.

End Arrival.

(** ** The push phase *)

Section PushLoop.
Context {card : Card} {consts : Constants} {cfg : Config}.
Hypothesis Hcard : accepts_pushes card.
Local Open Scope crorc_scope.

Lemma alter_is_insert {A} (g : A -> A) (r : nat) (l : list A) (x : A) :
  l !! r = Some x -> alter g r l = <[r := g x]> l.
Proof.
  revert r. induction l as [| y l IH]; intros [| r] H; try discriminate; simpl in *.
  - injection H as ->. reflexivity.
  - f_equal. apply IH, H.
Qed.

Lemma pushIntoSuperpage_run (r : nat) (s : Channel) (e : SuperpageQueueEntry) :
  entries (mSuperpageQueue s) !! r = Some e ->
  mFifoSize s < FIFO_QUEUE_MAX ->
  pushedPages e < maxPages e ->
  exists s',
    pushIntoSuperpage r s = Ok tt s'
    /\ pushed_from r e 1
         [pushCommand (busAddress e) (mFifoBack s) (pushedPages e) (mFifoSize s)] s s'
    /\ readyFifo s' = readyFifo s.
Proof.
  intros He Hroom Hleft.
  unfold pushIntoSuperpage, bind, get, assert, pushFreeFifoPage, crorc.
  destruct (Z.ltb_spec (mFifoSize s) FIFO_QUEUE_MAX); [| lia]. simpl.
  rewrite (deref_read r s e He).
  destruct (Z.ltb_spec (pushedPages e) (maxPages e)); [| lia]. simpl.
  rewrite Hcard. unfold modify, update. simpl.
  eexists. split; [reflexivity |]. unfold pushed_from. simpl.
  rewrite (alter_is_insert _ _ _ _ He).
  repeat split; reflexivity.
Qed.

(** [n] turns of a loop that pushes one page of the entry per turn, after
    a step [pre] that touches the Ready-FIFO only and keeps [related]. *)
Lemma push_loop (related : list ReadyFifoEntry -> list ReadyFifoEntry -> Prop)
    (pre : Z -> M unit) (r : nat) (n : nat) :
  (forall l, related l l) ->
  (forall l1 l2 l3, related l1 l2 -> related l2 l3 -> related l1 l3) ->
  forall (from : Z) (s : Channel) (e : SuperpageQueueEntry),
    (forall i s1, from <= i < from + Z.of_nat n ->
       exists l, pre i s1 = Ok tt (set_readyFifo l s1) /\ related (readyFifo s1) l) ->
    entries (mSuperpageQueue s) !! r = Some e ->
    mFifoSize s + Z.of_nat n <= FIFO_QUEUE_MAX ->
    pushedPages e + Z.of_nat n <= maxPages e ->
    exists s',
      for_loop n from (fun i => pre i ;;; pushIntoSuperpage r) s = Ok tt s'
      /\ pushed_from r e (Z.of_nat n)
           (map (fun j => pushCommand (busAddress e) (mFifoBack s)
                            (pushedPages e + j) (mFifoSize s + j))
                (seqZ 0 (Z.of_nat n))) s s'
      /\ related (readyFifo s) (readyFifo s').
Proof.
  intros Hrefl Htrans. induction n as [| n IH]; intros from s e Hpre He Hroom Hleft.
  - exists s. split; [reflexivity |]. split; [| apply Hrefl].
    unfold pushed_from. change (Z.of_nat 0) with 0. simpl.
    rewrite !Z.add_0_r, app_nil_r.
    replace (set_pushedPages (pushedPages e) e) with e by (destruct e; reflexivity).
    rewrite list_insert_id by exact He. repeat split; reflexivity.
  - destruct (Hpre from s ltac:(lia)) as (l & Hl & Rl).
    destruct (pushIntoSuperpage_run r (set_readyFifo l s) e He ltac:(simpl; lia)
                ltac:(lia)) as (s1 & H1 & P1 & F1).
    destruct P1 as (A1 & A2 & A3 & A4 & A5 & A6 & A7 & A8 & A9). simpl in *.
    assert (He1 : entries (mSuperpageQueue s1) !! r
                  = Some (set_pushedPages (pushedPages e + 1) e)).
    { rewrite A8. apply list_lookup_insert_eq. eapply lookup_lt_Some, He. }
    destruct (IH (from + 1) s1 _ ltac:(intros; apply Hpre; lia) He1
                ltac:(lia) ltac:(simpl; lia)) as (s' & H2 & P2 & F2).
    destruct P2 as (B1 & B2 & B3 & B4 & B5 & B6 & B7 & B8 & B9). simpl in *.
    exists s'. split.
    { change (for_loop (S n) from (fun i => pre i ;;; pushIntoSuperpage r) s)
        with (bind (bind (pre from) (fun _ => pushIntoSuperpage r))
                (fun _ => for_loop n (from + 1)
                            (fun i => pre i ;;; pushIntoSuperpage r)) s).
      unfold bind at 1. unfold bind at 1. rewrite Hl, H1. exact H2. }
    split.
    { unfold pushed_from. simpl.
      repeat split; try congruence; try lia.
      - rewrite B8, A8, list_insert_insert_eq. f_equal.
        unfold set_pushedPages. simpl. f_equal. lia.
      - rewrite B9, A9, <- app_assoc. f_equal.
        rewrite (seqZ_cons 0 (Z.of_nat (S n))) by lia.
        replace (Z.pred (Z.of_nat (S n))) with (Z.of_nat n) by lia.
        change (Z.succ 0) with 1.
        replace (seqZ 1 (Z.of_nat n)) with (map (Z.add 1) (seqZ 0 (Z.of_nat n)))
          by apply (fmap_add_seqZ 1 0).
        cbn [map app]. rewrite !Z.add_0_r. f_equal.
        rewrite map_map. apply map_ext. intros j.
        rewrite A1, A2. f_equal; lia. }
    eapply Htrans; [exact Rl |]. rewrite <- F1. exact F2.
Qed.

Lemma bind_ok {A B} (m : M A) (k : A -> M B) (s : Channel) (a : A) (s1 : Channel) :
  m s = Ok a s1 -> bind m k s = k a s1.
Proof. intros H. unfold bind. rewrite H. reflexivity. Qed.

Lemma for_loop_no_pre (n : nat) (from : Z) (r : nat) :
  for_loop n from (fun _ => pushIntoSuperpage r)
  = for_loop n from (fun i => (fun _ : Z => ret tt) i ;;; pushIntoSuperpage r).
Proof. reflexivity. Qed.

(** C3. When Pushing is not empty and no DMA start is pending, the push
    phase pushes exactly [min (FIFO_QUEUE_MAX - mFifoSize)
    (maxPages - pushedPages)] descriptors for the front entry [E] of
    Pushing (the card accepting them): the [j]-th targets bus address
    [busAddress + (pushedPages + j) * page_size] with [page_size / 4] words
    and goes into ring slot [(mFifoBack + mFifoSize + j) mod 128], the slot
    [(fifo_back + fifo_size) mod 128] of that moment; [mFifoSize] and
    [E.pushedPages] grow by one per push; afterwards [E] has moved from
    Pushing to the tail of Arrivals if and only if
    [pushedPages == maxPages]. *)
Theorem push_phase_pushes
    (s : Channel) (E : SuperpageQueueEntry) (rest : list SuperpageQueueEntry) :
  getPushing (mSuperpageQueue s) = E :: rest ->
  mPendingDmaStart s = false ->
  0 <= mFifoSize s <= FIFO_QUEUE_MAX ->
  0 <= pushedPages E <= maxPages E ->
  0 <= busAddress E ->
  0 <= mPageSize ->
  busAddress E + maxPages E * mPageSize < 2 ^ 64 ->
  let q := mSuperpageQueue s in
  let n := Z.min (FIFO_QUEUE_MAX - mFifoSize s) (maxPages E - pushedPages E) in
  let E' := set_pushedPages (pushedPages E + n) E in
  exists s',
    pushPhase s = Ok tt s'
    /\ cardTrace s'
       = cardTrace s
         ++ map (fun j => PushRxFreeFifo
                            (busAddress E + (pushedPages E + j) * mPageSize)
                            (mPageSize / 4)
                            ((mFifoBack s + mFifoSize s + j) mod 128))
              (seqZ 0 n)
    /\ mFifoSize s' = mFifoSize s + n
    /\ mFifoBack s' = mFifoBack s
    /\ mPendingDmaStart s' = false
    /\ readyFifo s' = readyFifo s
    /\ getFilled (mSuperpageQueue s') = getFilled q
    /\ if pushedPages E + n =? maxPages E
       then getPushing (mSuperpageQueue s') = rest
            /\ getArrivals (mSuperpageQueue s') = getArrivals q ++ [E']
       else getPushing (mSuperpageQueue s') = E' :: rest
            /\ getArrivals (mSuperpageQueue s') = getArrivals q.
Proof.
  intros Hpushing Hpending Hring Hpushed Hbus Hpage Hspace q n E'. subst q E'.
  destruct (pushing_front _ _ _ Hpushing) as (L & _).
  destruct (push_loop eq (fun _ => ret tt)
              (nFilled (mSuperpageQueue s) + nArrivals (mSuperpageQueue s))
              (Z.to_nat n) ltac:(reflexivity) ltac:(congruence) 0 s E
              ltac:(intros i s1 _; exists (readyFifo s1);
                     split; [destruct s1; reflexivity | reflexivity])
              L ltac:(lia) ltac:(lia))
    as (s1 & Hloop & P & Hfifo).
  rewrite Z2Nat.id in P by lia.
  destruct P as (A1 & A2 & A3 & A4 & A5 & A6 & A7 & A8 & A9).
  assert (Hcmds :
    map (fun j => pushCommand (busAddress E) (mFifoBack s)
                    (pushedPages E + j) (mFifoSize s + j)) (seqZ 0 n)
    = map (fun j => PushRxFreeFifo
                      (busAddress E + (pushedPages E + j) * mPageSize)
                      (mPageSize / 4)
                      ((mFifoBack s + mFifoSize s + j) mod 128)) (seqZ 0 n)).
  { apply map_ext_in. intros j Hj.
    apply list_elem_of_In, elem_of_seqZ in Hj. unfold pushCommand.
    rewrite (u64_small (mPageSize * (pushedPages E + j))) by nia.
    rewrite u64_small by nia. f_equal; [lia |]. f_equal. lia. }
  rewrite Hcmds in A9.
  pose proof (alter_pushing_front _ E rest
                (fun _ => set_pushedPages (pushedPages E + n) E) Hpushing) as V1.
  cbv zeta in V1. rewrite <- list_insert_alter, <- A8 in V1.
  destruct V1 as (V1f & V1a & V1p).
  assert (Hq1 : mSuperpageQueue s1
                = {| entries := entries (mSuperpageQueue s1);
                     nFilled := nFilled (mSuperpageQueue s);
                     nArrivals := nArrivals (mSuperpageQueue s) |}).
  { rewrite <- A6, <- A7. destruct (mSuperpageQueue s1). reflexivity. }
  assert (He1 : entries (mSuperpageQueue s1)
                !! (nFilled (mSuperpageQueue s) + nArrivals (mSuperpageQueue s))%nat
                = Some (set_pushedPages (pushedPages E + n) E)).
  { rewrite A8. apply list_lookup_insert_eq. eapply lookup_lt_Some, L. }
  assert (Hfront : getPushingFrontEntry s
                   = Ok (nFilled (mSuperpageQueue s) + nArrivals (mSuperpageQueue s))%nat s).
  { unfold getPushingFrontEntry, bind, getQueue. rewrite Hpushing. reflexivity. }
  rewrite <- Hq1 in V1f, V1a, V1p.
  unfold pushPhase.
  rewrite (bind_ok getQueue _ s _ s eq_refl). cbv beta.
  rewrite Hpushing. cbn [isNil negb].
  erewrite bind_ok by exact Hfront.
  rewrite (bind_ok get _ s _ s eq_refl). cbv beta. rewrite Hpending.
  erewrite bind_ok by exact (deref_read _ s E L).
  erewrite bind_ok by exact Hloop.
  erewrite bind_ok by exact (deref_read _ s1 _ He1).
  unfold isPushed. cbn [pushedPages maxPages set_pushedPages].
  destruct (pushedPages E + n =? maxPages E).
  - pose proof (remove_pushing_front _ _ rest V1p) as V2. cbv zeta in V2.
    destruct V2 as (V2f & V2a & V2p).
    unfold removeFromPushingQueue, bind, getQueue, setQueue, modify.
    cbv beta iota. rewrite V1p. cbn [isNil]. eexists. split; [reflexivity |].
    cbn [mSuperpageQueue set_mSuperpageQueue cardTrace mFifoSize mFifoBack
         mPendingDmaStart readyFifo].
    rewrite V2f, V2a, V2p, V1f, V1a. repeat split; congruence.
  - exists s1. split; [reflexivity |].
    rewrite V1f, V1a, V1p. repeat split; congruence.
Qed.

End PushLoop.

(** ** The deferred start *)

Section ColdStart.
Context {card : Card} {consts : Constants} {cfg : Config}.
Hypothesis Hall : accepts_all card.
Hypothesis Hlen : keeps_length card.
Hypothesis Hlast : reports_recognised card.
Hypothesis Hmax : FIFO_QUEUE_MAX = 128.
Hypothesis Hpage : mPageSize = 8192.
Local Open Scope crorc_scope.

Lemma stage_quiet (s0 s s' : Channel) q held pending cmds :
  stage s0 s q held pending cmds -> quiet s s' -> stage s0 s' q held pending cmds.
Proof.
  unfold stage, quiet, same_engine.
  intros (A1 & A2 & A3 & A4 & A5 & A6 & A7) ((B1 & B2 & B3 & B4 & B5 & B6) & B7 & B8).
  specialize (B8 Hlen). repeat split; congruence.
Qed.

Lemma dataArrived_recognised (i : Z) (s : Channel) (f : ReadyFifoEntry) :
  0 <= i < READYFIFO_ENTRIES ->
  readyFifo s !! Z.to_nat i = Some f ->
  recognised f = true ->
  exists st, dataArrived i s = Ok st s.
Proof.
  intros Hi Hf Hr. unfold dataArrived, bind. rewrite (fifoEntry_read i s f Hi Hf).
  unfold recognised in Hr.
  destruct (status f =? -1); [eexists; reflexivity |].
  destruct (status f =? 0); [eexists; reflexivity |].
  destruct (Z.land (status f) 255 =? DTSW); [| discriminate].
  simpl in Hr. rewrite Hr. eexists. reflexivity.
Qed.

(** One step of a computation, with the stage it reaches. *)
Tactic Notation "hw_run" constr(m) constr(s)
    "as" ident(a) ident(s') ident(H) ident(Q) :=
  destruct (hw_only_runs m s ltac:(repeat first
              [ apply hw_only_deviceResetChannel | apply hw_only_startDataReceiving
              | apply hw_only_startDataGenerator | hw_step ]) Hall)
    as (a & s' & H & Q).

Lemma startPendingDma_primes (s : Channel) (e0 : SuperpageQueueEntry) :
  mPendingDmaStart s = true ->
  mFifoBack s = 0 ->
  mFifoSize s = 0 ->
  mSuperpageQueue s = {| entries := [e0]; nFilled := 0; nArrivals := 0 |} ->
  pushedPages e0 = 0 ->
  maxPages e0 = 128 ->
  received (superpage e0) = 0 ->
  size (superpage e0) = MiB ->
  length (readyFifo s) = 128%nat ->
  exists s',
    startPendingDma 0 s = Ok tt s'
    /\ stage s s'
         {| entries :=
              [set_superpage
                 (set_ready true (set_received MiB (superpage e0)))
                 (set_pushedPages 128 e0)];
            nFilled := 1; nArrivals := 0 |}
         0 false
         (map (fun j => pushCommand (busAddress e0) 0 j j) (seqZ 0 128)).
Proof.
  intros Hpend Hback Hsize Hq Hpushed Hmaxp Hrecv Hsz Hfifo.
  assert (S0 : stage s s {| entries := [e0]; nFilled := 0; nArrivals := 0 |}
                 0 true []).
  { unfold stage. rewrite app_nil_r. auto 10. }
  unfold startPendingDma.
  rewrite (bind_ok get _ s _ s eq_refl). cbv beta. rewrite Hpend. cbn [negb].
  (* the card is armed *)
  hw_run (when mUseContinuousReadout then crorc InitReadoutContinuous) s
    as u1 t1 H1 Q1.
  erewrite bind_ok by exact H1. pose proof (stage_quiet _ _ _ _ _ _ _ S0 Q1) as S1.
  hw_run initDiuVersion t1 as diu t2 H2 Q2.
  erewrite bind_ok by exact H2. pose proof (stage_quiet _ _ _ _ _ _ _ S1 Q2) as S2.
  rewrite (bind_ok (modify (set_mDiuConfig diu)) _ t2 tt _ eq_refl).
  assert (S3 : stage s (set_mDiuConfig diu t2)
                 {| entries := [e0]; nFilled := 0; nArrivals := 0 |} 0 true [])
    by exact S2.
  hw_run (deviceResetChannel mInitialResetLevel) (set_mDiuConfig diu t2)
    as u4 t4 H4 Q4.
  erewrite bind_ok by exact H4. pose proof (stage_quiet _ _ _ _ _ _ _ S3 Q4) as S4.
  hw_run startDataReceiving t4 as u5 t5 H5 Q5.
  erewrite bind_ok by exact H5. pose proof (stage_quiet _ _ _ _ _ _ _ S4 Q5) as S5.
  (* the ring is primed *)
  destruct S5 as (B1 & B2 & B3 & B4 & B5 & B6 & B7).
  assert (He0 : entries (mSuperpageQueue t5) !! 0%nat = Some e0)
    by (rewrite B4; reflexivity).
  destruct (push_loop (fun h a w i => Hall h (PushRxFreeFifo a w i))
              (fun l l' => length l' = length l) resetDescriptor 0
              (Z.to_nat READYFIFO_ENTRIES) ltac:(reflexivity)
              ltac:(intros; congruence) 0 t5 e0
              ltac:(intros i sx Hi; eexists;
                    split; [apply resetDescriptor_run; exact Hi
                           | apply length_insert])
              He0 ltac:(rewrite B2, Hmax; reflexivity)
              ltac:(rewrite Hpushed, Hmaxp; reflexivity))
    as (t6 & H6 & P6 & F6).
  erewrite bind_ok by exact H6.
  change (Z.of_nat (Z.to_nat READYFIFO_ENTRIES)) with 128 in P6.
  destruct P6 as (C1 & C2 & C3 & C4 & C5 & C6 & C7 & C8 & C9).
  rewrite B4 in C6, C7, C8. simpl in C6, C7, C8. rewrite Hpushed in C8.
  assert (Hq4 : mSuperpageQueue t6
                = {| entries := [set_pushedPages 128 e0];
                     nFilled := 0; nArrivals := 0 |}).
  { change (0 + 128) with 128 in C8.
    destruct (mSuperpageQueue t6) as [en nf na].
    cbn [entries nFilled nArrivals] in C6, C7, C8. subst en nf na. reflexivity. }
  erewrite bind_ok by (apply deref_read; rewrite Hq4; reflexivity).
  cbn [pushedPages maxPages set_pushedPages]. rewrite Hmaxp.
  cbn [Z.leb Z.eqb Z.compare Pos.compare Pos.compare_cont Pos.eqb assert].
  rewrite (bind_ok (ret tt) _ t6 tt t6 eq_refl).
  rewrite (bind_ok removeFromPushingQueue _ t6 tt
             (set_mSuperpageQueue
                {| entries := [set_pushedPages 128 e0];
                   nFilled := 0; nArrivals := 1 |} t6))
    by (unfold removeFromPushingQueue, bind, getQueue; rewrite Hq4; reflexivity).
  assert (S6 : stage s
                 (set_mSuperpageQueue
                    {| entries := [set_pushedPages 128 e0];
                       nFilled := 0; nArrivals := 1 |} t6)
                 {| entries := [set_pushedPages 128 e0];
                    nFilled := 0; nArrivals := 1 |} 128 true
                 (map (fun j => pushCommand (busAddress e0) 0 j j) (seqZ 0 128))).
  { unfold stage.
    cbn [mFifoBack mFifoSize mPendingDmaStart mSuperpageQueue bufferWrites
         cardTrace readyFifo set_mSuperpageQueue].
    rewrite C1, C2, C3, C5, C9, B1, B2, B3, B5, F6, B7, Hpushed.
    repeat split; try reflexivity.
    unfold pushes in *. rewrite app_nil_r in B6.
    rewrite List.filter_app, B6. f_equal. }
  (* the data source is started, the driver waits *)
  match goal with
  | |- context [bind (if mGeneratorEnabled then ?a else ?b) _ ?st] =>
      hw_run (if mGeneratorEnabled then a else b) st as u7 t7 H7 Q7
  end.
  erewrite bind_ok by exact H7. pose proof (stage_quiet _ _ _ _ _ _ _ S6 Q7) as S7.
  rewrite (bind_ok sleep_for _ t7 tt _ eq_refl).
  destruct S7 as (D1 & D2 & D3 & D4 & D5 & D6 & D7).
  assert (Hwake : exists f,
            card_dma (cardTrace t7) (readyFifo t7)
            !! Z.to_nat (READYFIFO_ENTRIES - 1) = Some f).
  { apply lookup_lt_is_Some. rewrite Hlen, D7, Hfifo.
    unfold READYFIFO_ENTRIES. lia. }
  destruct Hwake as (f & Hf).
  destruct (dataArrived_recognised (READYFIFO_ENTRIES - 1)
              (set_readyFifo (card_dma (cardTrace t7) (readyFifo t7)) t7) f
              ltac:(unfold READYFIFO_ENTRIES; lia) Hf (Hlast _ _ _ Hf))
    as (st & H8).
  erewrite bind_ok by exact H8.
  (* the superpage is credited and delivered *)
  unfold update at 1.
  erewrite bind_ok by reflexivity. cbn [mSuperpageQueue set_readyFifo]. rewrite D4.
  cbn [entries nFilled nArrivals alter list_alter superpage set_pushedPages
       received set_superpage set_received].
  rewrite Hrecv, Hpage.
  change (u64 (0 + u64 (READYFIFO_ENTRIES * 8192))) with MiB.
  erewrite bind_ok by (apply deref_read; reflexivity).
  cbn [superpage set_superpage received size set_received]. rewrite Hsz.
  change (MiB =? MiB) with true. cbv iota.
  erewrite bind_ok by reflexivity.
  erewrite bind_ok by reflexivity.
  erewrite bind_ok by reflexivity.
  erewrite bind_ok by reflexivity.
  erewrite bind_ok by reflexivity.
  match goal with
  | |- context [(when mUseContinuousReadout then ?a) ?st] =>
      hw_run (when mUseContinuousReadout then a) st as u9 t9 H9 Q9
  end.
  destruct u9. exists t9. split; [exact H9 |].
  eapply stage_quiet; [| exact Q9].
  unfold stage. simpl. rewrite D5, D6, length_map, Hlen, D7.
  repeat split; reflexivity.
Qed.

Hypothesis Hbuffer : MiB <= bufferSize.
Hypothesis Hroom : (0 < TRANSFER_QUEUE_SIZE)%nat.

(** C1 (as amended). With page size 8192 and a ring of 128
    ([FIFO_QUEUE_MAX = 128]), a buffer of at least 1 MiB, a card that
    accepts every command and leaves a recognised status in slot 127: if
    the client calls [start_dma], then pushes one superpage
    [{offset = 0, size = 1 MiB}], then calls [fill_superpages], the engine
    primes exactly 128 descriptors from that superpage (page [j] at bus
    address [base + 8192 * j], 2048 words, slot [j]), the superpage's
    [received] becomes [128 * 8192 = 1048576], the entry is in Filled and
    nowhere else, the ring is empty again, and [pop_superpage] returns
    [{offset = 0, size = 1 MiB, received = 1 MiB, ready = true}]. *)
Theorem cold_start (s : Channel) (r : Z) (b : bool) :
  length (readyFifo s) = 128%nat ->
  let sp := {| offset := 0; size := MiB; received := r; ready := b |} in
  let done := {| offset := 0; size := MiB; received := 128 * 8192; ready := true |} in
  exists s1 s2 s3 s4,
    deviceStartDma s = Ok tt s1
    /\ pushSuperpage sp s1 = Ok tt s2
    /\ fillSuperpages s2 = Ok tt s3
    /\ popSuperpage s3 = Ok done s4
    /\ pushes (cardTrace s3)
       = pushes (cardTrace s)
         ++ map (fun j => PushRxFreeFifo (u64 (u64 bufferBusAddress + 8192 * j)) 2048 j)
              (seqZ 0 128)
    /\ getFilled (mSuperpageQueue s3)
       = [ {| superpage := done; busAddress := u64 bufferBusAddress;
              maxPages := 128; pushedPages := 128 |} ]
    /\ getArrivals (mSuperpageQueue s3) = []
    /\ getPushing (mSuperpageQueue s3) = []
    /\ mFifoSize s3 = 0
    /\ mFifoBack s3 = 0
    /\ mPendingDmaStart s3 = false
    /\ getFilled (mSuperpageQueue s4) = [].
Proof.
  intros Hfifo sp done.
  pose (e0 := {| superpage := set_received 0 sp;
                 busAddress := u64 bufferBusAddress;
                 maxPages := 128; pushedPages := 0 |}).
  pose (s1 := set_mPendingDmaStart true
                (set_mSuperpageQueue emptyQueue
                   (set_mFifoSize 0 (set_mFifoBack 0 s)))).
  pose (s2 := set_mSuperpageQueue
                {| entries := [e0]; nFilled := 0; nArrivals := 0 |} s1).
  assert (Hpush : pushSuperpage sp s1 = Ok tt s2).
  { unfold pushSuperpage, checkSuperpage, isMultiple, MIN_SIZE, getBusOffsetAddress.
    cbn [size offset sp]. rewrite Hpage.
    change (MiB =? 0) with false. change (u64 (0 + MiB)) with MiB.
    destruct (Z.gtb_spec MiB bufferSize); [lia |].
    change (negb (0 mod 4 =? 0)) with false.
    change (negb (MiB mod (1 * 1024 * 1024) =? 0)) with false.
    change (8192 =? 0) with false. change (MiB / 8192) with 128.
    rewrite Z.add_0_r. cbv iota.
    rewrite (bind_ok (ret tt) _ s1 tt s1 eq_refl).
    unfold addToQueue, bind, getQueue, getQueueAvailable.
    change (mSuperpageQueue s1) with emptyQueue. cbv beta iota.
    change (Z.of_nat (length (getPushing emptyQueue)
                      + length (getArrivals emptyQueue))) with 0.
    destruct (Z.leb_spec (Z.of_nat TRANSFER_QUEUE_SIZE - 0) 0); [lia |].
    reflexivity. }
  destruct (startPendingDma_primes s2 e0 eq_refl eq_refl eq_refl eq_refl eq_refl
              eq_refl eq_refl eq_refl Hfifo) as (s3 & Hstart & St).
  destruct St as (T1 & T2 & T3 & T4 & T5 & T6 & T7).
  assert (Hfill : fillSuperpages s2 = Ok tt s3).
  { unfold fillSuperpages.
    erewrite bind_ok; [| unfold pushPhase;
      rewrite (bind_ok getQueue _ s2 _ s2 eq_refl); cbv beta;
      change (negb (isNil (getPushing (mSuperpageQueue s2)))) with true; cbv iota;
      rewrite (bind_ok getPushingFrontEntry _ s2 0%nat s2 eq_refl);
      rewrite (bind_ok get _ s2 _ s2 eq_refl); cbv beta;
      change (mPendingDmaStart s2) with true; cbv iota; exact Hstart].
    unfold arrivalPhase. rewrite (bind_ok getQueue _ s3 _ s3 eq_refl). cbv beta.
    rewrite T4. reflexivity. }
  exists s1, s2, s3. eexists.
  split; [reflexivity |]. split; [exact Hpush |]. split; [exact Hfill |].
  split.
  { unfold popSuperpage, removeFromFilledQueue, bind, getQueue.
    cbv beta iota. rewrite T4. reflexivity. }
  cbn [mSuperpageQueue set_mSuperpageQueue]. rewrite T1, T2, T3, T4, T6.
  repeat split; try reflexivity.
  f_equal. apply map_ext_in. intros j Hj.
  apply list_elem_of_In, elem_of_seqZ in Hj. unfold pushCommand.
  rewrite Hpage. cbn [busAddress e0].
  rewrite (u64_small (8192 * j)) by lia.
  rewrite Z.add_0_l, (Z.mod_small j) by (unfold READYFIFO_ENTRIES; lia).
  reflexivity.
Qed.

End ColdStart.

(** ** The properties at concrete channels *)

Ltac by_computation :=
  vm_compute; repeat split; first [reflexivity | discriminate | lia].

Lemma workingCard_accepts_all : accepts_all workingCard.
Proof. intros h c. reflexivity. Qed.

Lemma workingCard_keeps_length : keeps_length workingCard.
Proof. intros h f. apply length_map. Qed.

Lemma workingCard_reports_recognised : reports_recognised workingCard.
Proof.
  intros h l f. simpl. generalize (Z.to_nat (READYFIFO_ENTRIES - 1)).
  induction l as [| x l IH]; intros [| i] H; try discriminate; simpl in H.
  - injection H as <-. reflexivity.
  - apply (IH i H).
Qed.

(** C1, the claim as it stands: [start_dma] clears the queue, so the
    superpage pushed before it is lost; [fill_superpages] then primes no
    descriptor and [pop_superpage] finds Filled empty. *)
Lemma push_before_start_is_lost :
  (@pushSuperpage defaultConstants defaultConfig firstSuperpage ;;;
   deviceStartDma ;;;
   @fillSuperpages workingCard defaultConstants defaultConfig ;;;
   popSuperpage)%crorc constructed
  = Throw QueueEmptyError (set_mPendingDmaStart true constructed)
  /\ pushes (cardTrace (set_mPendingDmaStart true constructed)) = [].
Proof. split; reflexivity. Qed.

Lemma cold_start_witness :
  exists s1 s2 s3 s4,
    deviceStartDma constructed = Ok tt s1
    /\ @pushSuperpage defaultConstants defaultConfig firstSuperpage s1 = Ok tt s2
    /\ @fillSuperpages workingCard defaultConstants defaultConfig s2 = Ok tt s3
    /\ popSuperpage s3
       = Ok {| offset := 0; size := MiB; received := 128 * 8192; ready := true |} s4
    /\ length (pushes (cardTrace s3)) = 128%nat.
Proof.
  destruct (@cold_start workingCard defaultConstants defaultConfig
              workingCard_accepts_all workingCard_keeps_length
              workingCard_reports_recognised eq_refl eq_refl
              ltac:(by_computation) ltac:(by_computation)
              constructed 0 false eq_refl)
    as (s1 & s2 & s3 & s4 & H1 & H2 & H3 & H4 & H5 & _).
  exists s1, s2, s3, s4. repeat split; try assumption.
  rewrite H5. reflexivity.
Defined.

Lemma arrival_turn_witness :
  exists s',
    @arrivalStep defaultConfig arrivedChannel = Ok true s'
    /\ bufferWrites s'
       = [(0x10000000 + MiB + 16, 0); (0x10000000 + MiB + 20, 0);
          (0x10000000 + MiB + 24, 0); (0x10000000 + MiB + 28, 2048)]
    /\ mFifoSize s' = 127
    /\ mFifoBack s' = 1
    /\ getArrivals (mSuperpageQueue s')
       = [set_superpage
            {| offset := 0; size := 2 * MiB; received := MiB + 8192; ready := false |}
            (set_pushedPages 256 halfPushed)].
Proof.
  destruct (@arrival_turn defaultConfig arrivedChannel
              (set_pushedPages 256 halfPushed) [] arrivedEntry
              eq_refl eq_refl ltac:(by_computation) eq_refl
              ltac:(by_computation)
              ltac:(by_computation)
              ltac:(by_computation) ltac:(by_computation)
              ltac:(by_computation) ltac:(by_computation)
              ltac:(by_computation) eq_refl)
    as (_ & H).
  destruct (H eq_refl eq_refl)
    as (s' & H1 & _ & H3 & _ & H5 & H6 & _ & _ & _ & H10).
  exists s'. repeat split; try assumption. apply H10.
Defined.

Lemma push_phase_pushes_witness :
  exists s',
    @pushPhase workingCard defaultConstants bigBufferConfig primedChannel = Ok tt s'
    /\ length (cardTrace s') = 128%nat
    /\ mFifoSize s' = 128
    /\ getPushing (mSuperpageQueue s') = []
    /\ getArrivals (mSuperpageQueue s') = [set_pushedPages 256 halfPushed].
Proof.
  destruct (@push_phase_pushes workingCard defaultConstants bigBufferConfig
              (fun h a w i => eq_refl) primedChannel halfPushed []
              eq_refl eq_refl ltac:(by_computation)
              ltac:(by_computation)
              ltac:(by_computation) ltac:(by_computation)
              eq_refl)
    as (s' & H1 & H2 & H3 & _ & _ & _ & _ & H8).
  exists s'. repeat split; try assumption.
  - rewrite H2. reflexivity.
  - apply H8.
  - apply H8.
Defined.

Lemma error_descriptor_fails_fill_witness :
  @fillSuperpages workingCard defaultConstants defaultConfig faultyChannel
  = Throw (CrorcDataArrivalException
             "Data arrival status word contains error bits"
             (i32 0x80000082) 2048 0) faultyChannel
  /\ i32 0x80000082 = -2147483518.
Proof.
  split; [| reflexivity].
  refine (proj1 (@error_descriptor_fails_fill workingCard defaultConstants defaultConfig
           faultyChannel faultyChannel (set_pushedPages 256 halfPushed) []
           errorEntry eq_refl eq_refl eq_refl
           ltac:(by_computation) eq_refl
           ltac:(by_computation)
           eq_refl eq_refl)).
Defined.

(** ** More on the dummy channel *)

Module DummyMore.
Import Dummy DummyFacts.

Lemma fillLoop_moves (n : nat) (c : DummyDmaChannel) :
  (length (mReadyQueue c) <= READY_QUEUE_SIZE)%nat ->
  (n <= length (mTransferQueue c))%nat ->
  let k := Nat.min n (READY_QUEUE_SIZE - length (mReadyQueue c)) in
  fillLoop n c
  = {| mTransferQueue := drop k (mTransferQueue c);
       mReadyQueue := mReadyQueue c ++ map fill (take k (mTransferQueue c));
       mBufferSize := mBufferSize c |}.
Proof.
  revert c. induction n as [| n IH]; intros c Hready Hn; cbv zeta.
  - simpl. rewrite app_nil_r. destruct c; reflexivity.
  - cbn [fillLoop]. unfold full.
    destruct (Nat.eqb_spec (length (mReadyQueue c)) READY_QUEUE_SIZE) as [E | E].
    + replace (Nat.min (S n) (READY_QUEUE_SIZE - length (mReadyQueue c)))
        with 0%nat by lia.
      simpl. rewrite app_nil_r. destruct c; reflexivity.
    + destruct (mTransferQueue c) as [| front rest] eqn:Hq; [simpl in Hn; lia |].
      rewrite push_back_room by lia.
      replace (Nat.min (S n) (READY_QUEUE_SIZE - length (mReadyQueue c)))
        with (S (Nat.min n (READY_QUEUE_SIZE - (length (mReadyQueue c) + 1))))
        by lia.
      rewrite IH; cbn [mReadyQueue mTransferQueue mBufferSize];
        rewrite ?length_app; simpl in Hn |- *; try lia.
      rewrite <- app_assoc. reflexivity.
Qed.

(** [fillSuperpages] moves as many superpages as the ready queue has room
    for, oldest first, and marks each one received and ready. *)
Theorem fillSuperpages_moves (c : DummyDmaChannel) :
  (length (mReadyQueue c) <= READY_QUEUE_SIZE)%nat ->
  let k := Nat.min (length (mTransferQueue c))
             (READY_QUEUE_SIZE - length (mReadyQueue c)) in
  fillSuperpages c
  = {| mTransferQueue := drop k (mTransferQueue c);
       mReadyQueue := mReadyQueue c ++ map fill (take k (mTransferQueue c));
       mBufferSize := mBufferSize c |}.
Proof. intros H. apply fillLoop_moves; [exact H | reflexivity]. Qed.

Lemma fillSuperpages_moves_witness :
  let a := {| offset := 0; size := 32768; received := 0; ready := false |} in
  let b := {| offset := 32768; size := 65536; received := 7; ready := false |} in
  fillSuperpages {| mTransferQueue := [a; b]; mReadyQueue := []; mBufferSize := MiB |}
  = {| mTransferQueue := drop 2 [a; b];
       mReadyQueue := [] ++ map fill (take 2 [a; b]);
       mBufferSize := MiB |}.
Proof.
  apply (fillSuperpages_moves
           {| mTransferQueue :=
                [ {| offset := 0; size := 32768; received := 0; ready := false |};
                  {| offset := 32768; size := 65536; received := 7; ready := false |} ];
              mReadyQueue := []; mBufferSize := MiB |}).
  vm_compute. lia.
Defined.

(** A second [fillSuperpages] right after the first moves nothing. *)
Theorem fillSuperpages_twice (c : DummyDmaChannel) :
  (length (mReadyQueue c) <= READY_QUEUE_SIZE)%nat ->
  fillSuperpages (fillSuperpages c) = fillSuperpages c.
Proof.
  intros H. unfold fillSuperpages.
  rewrite !(fillLoop_moves _ c H (le_n _)).
  set (k := Nat.min (length (mTransferQueue c))
              (READY_QUEUE_SIZE - length (mReadyQueue c))).
  cbn [mTransferQueue].
  rewrite fillLoop_moves; cbn [mReadyQueue mTransferQueue mBufferSize];
    rewrite ?length_app, ?length_map, ?length_take, ?length_drop;
    unfold READY_QUEUE_SIZE in *; try lia.
  replace (Nat.min (length (mTransferQueue c) - k)
             (32 - (length (mReadyQueue c) + Nat.min k (length (mTransferQueue c)))))
    with 0%nat by lia.
  simpl. rewrite app_nil_r. reflexivity.
Qed.

Lemma fillSuperpages_twice_witness :
  let a := {| offset := 0; size := 32768; received := 0; ready := false |} in
  let c := {| mTransferQueue := [a; a]; mReadyQueue := replicate 31 a;
              mBufferSize := MiB |} in
  fillSuperpages (fillSuperpages c) = fillSuperpages c.
Proof.
  apply (fillSuperpages_twice
           {| mTransferQueue :=
                [ {| offset := 0; size := 32768; received := 0; ready := false |};
                  {| offset := 0; size := 32768; received := 0; ready := false |} ];
              mReadyQueue :=
                replicate 31
                  {| offset := 0; size := 32768; received := 0; ready := false |};
              mBufferSize := MiB |}).
  vm_compute. lia.
Defined.


(** Every superpage [popSuperpage] returns is complete: [ready] is set and
    [received] equals [size]. *)
Theorem popped_superpages_complete (bufferBytes : Z) (calls : list Call) :
  Forall (fun sp => ready sp = true /\ received sp = size sp)
    (popped (run calls (started bufferBytes))).
Proof.
  assert (H : pipeline (run calls (started bufferBytes))).
  { apply run_pipeline. unfold pipeline; simpl. auto with arith. }
  destruct H as (H & _).
  apply Forall_forall. intros sp Hin. apply list_elem_of_In in Hin.
  assert (Hin' : In sp (map fill (accepted (run calls (started bufferBytes))))).
  { rewrite H. apply in_or_app. left. exact Hin. }
  apply in_map_iff in Hin'. destruct Hin' as (x & <- & _). split; reflexivity.
Qed.

End DummyMore.

(** ** More on the C-RORC engine *)

Section EngineMore.
Context {card : Card} {consts : Constants} {cfg : Config}.
Local Open Scope crorc_scope.

(** A status word that is neither [-1], nor [0], nor a DTSW word fails the
    channel: with the ring and Arrivals not empty, [fillSuperpages] throws
    [CrorcDataArrivalException] "Unrecognized data arrival status word"
    with the status, the length and the index of slot [mFifoBack], and the
    arrival phase changes nothing. *)
Theorem unrecognised_status_fails_fill
    (s0 s : Channel) (F : SuperpageQueueEntry) (rest : list SuperpageQueueEntry)
    (f : ReadyFifoEntry) :
  pushPhase s0 = Ok tt s ->
  getArrivals (mSuperpageQueue s) = F :: rest ->
  0 < mFifoSize s ->
  0 <= mFifoBack s < READYFIFO_ENTRIES ->
  readyFifo s !! Z.to_nat (mFifoBack s) = Some f ->
  - 2 ^ 31 <= status f < 2 ^ 31 ->
  status f <> -1 ->
  status f <> 0 ->
  Z.land (status f) 0xff <> DTSW ->
  fillSuperpages s0
  = Throw (CrorcDataArrivalException "Unrecognized data arrival status word"
             (status f) (length32 f) (mFifoBack s)) s.
Proof.
  intros Hpush Harr Hsize Hback Hslot Hword N1 N0 Nd.
  unfold fillSuperpages. erewrite bind_ok by exact Hpush.
  rewrite (arrivalPhase_loop s F rest Harr), (arrivalLoop_turn s Hsize).
  rewrite (arrivalStep_arrived s F rest f Harr Hback Hslot Hword).
  rewrite (dataArrived_cases _ s f Hback Hslot Hword).
  destruct (Z.eqb_spec (status f) (-1)); [contradiction |].
  destruct (Z.eqb_spec (status f) 0); [contradiction |].
  destruct (Z.eqb_spec (Z.land (status f) 255) DTSW); [contradiction |].
  reflexivity.
Qed.

(** While no superpage is queued for pushing or waiting for arrivals,
    [fillSuperpages] does nothing at all: a pending DMA start stays
    pending and nothing is sent to the card, however often it is called. *)
Theorem fillSuperpages_idle (n : nat) (s : Channel) :
  getPushing (mSuperpageQueue s) = [] ->
  getArrivals (mSuperpageQueue s) = [] ->
  fillSuperpages s = Ok tt s
  /\ after (repeat FillSuperpages n) s = Some s.
Proof.
  intros Hp Ha.
  assert (H : fillSuperpages s = Ok tt s).
  { unfold fillSuperpages, pushPhase, arrivalPhase, bind, getQueue.
    rewrite Hp. simpl. rewrite Ha. reflexivity. }
  split; [exact H |].
  induction n as [| n IH]; simpl; [reflexivity |]. rewrite H. exact IH.
Qed.

(** The engine harvests arrivals only for entries in Arrivals. When the
    ring is full, the front of Pushing is not fully pushed and Arrivals is
    empty, [fillSuperpages] changes nothing, whatever the card has written
    into the Ready-FIFO: the pages in the ring are never harvested and the
    rest of the superpage is never pushed. *)
Theorem fillSuperpages_stalls
    (s : Channel) (E : SuperpageQueueEntry) (rest : list SuperpageQueueEntry)
    (n : nat) :
  mPendingDmaStart s = false ->
  getPushing (mSuperpageQueue s) = E :: rest ->
  getArrivals (mSuperpageQueue s) = [] ->
  pushedPages E < maxPages E ->
  mFifoSize s = FIFO_QUEUE_MAX ->
  (forall fifo, fillSuperpages (set_readyFifo fifo s) = Ok tt (set_readyFifo fifo s))
  /\ after (repeat FillSuperpages n) s = Some s.
Proof.
  intros Hpend Hp Ha Hleft Hfull.
  assert (H : forall fifo,
             fillSuperpages (set_readyFifo fifo s) = Ok tt (set_readyFifo fifo s)).
  { intros fifo. destruct (pushing_front _ _ _ Hp) as (L & _).
    set (t := set_readyFifo fifo s).
    assert (Hfront : getPushingFrontEntry t
                     = Ok (nFilled (mSuperpageQueue s)
                           + nArrivals (mSuperpageQueue s))%nat t).
    { unfold getPushingFrontEntry, bind, getQueue. simpl. rewrite Hp. reflexivity. }
    assert (Hpush : pushPhase t = Ok tt t).
    { unfold pushPhase.
      rewrite (bind_ok getQueue _ t _ t eq_refl). cbv beta.
      change (mSuperpageQueue t) with (mSuperpageQueue s).
      rewrite Hp. cbn [isNil negb].
      erewrite bind_ok by exact Hfront.
      rewrite (bind_ok get _ t _ t eq_refl). cbv beta.
      change (mPendingDmaStart t) with (mPendingDmaStart s). rewrite Hpend.
      erewrite bind_ok by exact (deref_read _ t E L).
      unfold getUnpushedPages. change (mFifoSize t) with (mFifoSize s).
      rewrite Hfull.
      replace (Z.to_nat (Z.min (FIFO_QUEUE_MAX - FIFO_QUEUE_MAX)
                           (maxPages E - pushedPages E))) with 0%nat by lia.
      cbn [for_loop]. rewrite (bind_ok (ret tt) _ t tt t eq_refl).
      erewrite bind_ok by exact (deref_read _ t E L).
      unfold isPushed. destruct (Z.eqb_spec (pushedPages E) (maxPages E)); [lia |].
      reflexivity. }
    unfold fillSuperpages. erewrite bind_ok by exact Hpush.
    unfold arrivalPhase, bind, getQueue.
    change (mSuperpageQueue t) with (mSuperpageQueue s). rewrite Ha. reflexivity. }
  split; [exact H |].
  assert (H0 : fillSuperpages s = Ok tt s).
  { specialize (H (readyFifo s)).
    replace (set_readyFifo (readyFifo s) s) with s in H by (destruct s; reflexivity).
    exact H. }
  induction n as [| n IH]; simpl; [reflexivity |]. rewrite H0. exact IH.
Qed.

(** Every turn of the arrival loop that goes on takes exactly one
    descriptor out of the ring, so the loop ends after at most [mFifoSize]
    turns: more fuel than that changes nothing. *)
Theorem arrivalLoop_fuel :
  (forall s s', arrivalStep s = Ok true s' ->
     mFifoSize s' = mFifoSize s - 1
     /\ mFifoBack s' = (mFifoBack s + 1) mod READYFIFO_ENTRIES)
  /\ (forall n s, (Z.to_nat (mFifoSize s) <= n)%nat ->
        arrivalLoop n s = arrivalLoop (Z.to_nat (mFifoSize s)) s).
Proof.
  assert (Hstep : forall s s', arrivalStep s = Ok true s' ->
     mFifoSize s' = mFifoSize s - 1
     /\ mFifoBack s' = (mFifoBack s + 1) mod READYFIFO_ENTRIES).
  { intros s s'.
    unfold arrivalStep, getArrivalsFrontEntry, isArrived, dataArrived,
      harvestPage, fifoEntry, resetDescriptor, writeSdhEventSize, deref, update,
      moveFromArrivalsToFilledQueue, getQueue, setQueue, bind, get, modify, throw,
      ret.
    intros H. simpl in H.
    repeat (case_match; simplify_eq; simpl in * ); auto. }
  split; [exact Hstep |].
  induction n as [| n IH]; intros s Hn.
  - replace (Z.to_nat (mFifoSize s)) with 0%nat by lia. reflexivity.
  - destruct (Z.gtb_spec (mFifoSize s) 0) as [Hpos | Hzero].
    + replace (Z.to_nat (mFifoSize s)) with (S (Z.to_nat (mFifoSize s - 1))) by lia.
      cbn [arrivalLoop]. unfold bind at 1 3, get.
      destruct (Z.gtb_spec (mFifoSize s) 0); [| lia].
      unfold bind. destruct (arrivalStep s) as [[|] s' | e s' |] eqn:E; try reflexivity.
      destruct (Hstep s s' E) as (Hs & _).
      rewrite IH by lia. rewrite Hs. reflexivity.
    + replace (Z.to_nat (mFifoSize s)) with 0%nat by lia.
      cbn [arrivalLoop]. unfold bind, get.
      destruct (Z.gtb_spec (mFifoSize s) 0); [lia | reflexivity].
Qed.

End EngineMore.

(** ** Channel paths *)

Module ChannelPathsFacts.
Import ChannelPaths.
Local Open Scope string_scope.

Lemma append_cancel_l (p a b : string) : p ++ a = p ++ b -> a = b.
Proof.
  induction p as [| c p IH]; simpl; intros H; [exact H |].
  injection H as H. apply IH, H.
Qed.

Lemma length_append (a b : string) :
  String.length (a ++ b) = (String.length a + String.length b)%nat.
Proof. induction a as [| c a IH]; simpl; [reflexivity | rewrite IH; reflexivity]. Qed.

Lemma append_cancel_r (a b c d : string) :
  String.length c = String.length d -> a ++ c = b ++ d -> a = b /\ c = d.
Proof.
  intros Hlen. revert b. induction a as [| x a IH]; intros [| y b] H; simpl in H.
  - auto.
  - apply (f_equal String.length) in H. simpl in H. rewrite length_append in H. lia.
  - apply (f_equal String.length) in H. simpl in H. rewrite length_append in H. lia.
  - injection H as -> H. destruct (IH b H) as (-> & ->). auto.
Qed.

Lemma show_int_inj (a b : Z) : show_int a = show_int b -> a = b.
Proof.
  unfold show_int. intros H. apply DecimalZ.to_int_inj.
  pose proof (NilEmpty.isi (Z.to_int a)) as Ha. rewrite H, NilEmpty.isi in Ha.
  injection Ha as Ha. symmetry. exact Ha.
Qed.

(** The names of the channels of one card never collide: two channels have
    the same lock file, the same FIFO file or the same mutex name only if
    they have the same number, and a lock file is never a FIFO file nor a
    mutex name. *)
Theorem channel_names_distinct (pci : string) (a b : Z) :
  let p := {| mPciAddress := pci; mChannel := a |} in
  let q := {| mPciAddress := pci; mChannel := b |} in
  (lock p = lock q <-> a = b)
  /\ (fifo p = fifo q <-> a = b)
  /\ (namedMutex p = namedMutex q <-> a = b)
  /\ lock p <> fifo q
  /\ lock p <> namedMutex q
  /\ fifo p <> namedMutex q.
Proof.
  intros p q. subst p q.
  unfold lock, fifo, namedMutex, makePath, DIR_SHAREDMEM.
  cbn [mPciAddress mChannel].
  assert (Hsuffix : forall pre x y, String.length x = String.length y ->
            pre ++ pci ++ "_Channel_" ++ show_int a ++ x
            = pre ++ pci ++ "_Channel_" ++ show_int b ++ y ->
            a = b /\ x = y).
  { intros pre x y Hlen H.
    apply append_cancel_l, append_cancel_l, append_cancel_l in H.
    destruct (append_cancel_r _ _ _ _ Hlen H) as (Hab & Hxy).
    split; [apply show_int_inj, Hab | exact Hxy]. }
  repeat split.
  - intros H. apply append_cancel_l in H.
    apply (Hsuffix _ ".lock" ".lock" eq_refl H).
  - intros ->. reflexivity.
  - intros H. apply append_cancel_l in H.
    apply (Hsuffix _ "_fifo" "_fifo" eq_refl H).
  - intros ->. reflexivity.
  - intros H. apply (Hsuffix _ "_Mutex" "_Mutex" eq_refl H).
  - intros ->. reflexivity.
  - intros H. apply append_cancel_l in H.
    destruct (Hsuffix _ ".lock" "_fifo" eq_refl H) as (_ & Hx). discriminate Hx.
  - intros H. simpl in H. discriminate H.
  - intros H. simpl in H. discriminate H.
Qed.

End ChannelPathsFacts.

(** ** Back-pressure on the dummy channel *)

Module DummyPush.
Import Dummy.

(** [pushSuperpage] refuses with "transfer queue was full" exactly when
    [getTransferQueueAvailable] is 0, before it looks at the superpage;
    a push it accepts appends the superpage, as the client gave it, to the
    transfer queue, takes one slot and leaves the ready queue alone. *)
Theorem pushSuperpage_back_pressure (sp : Superpage) (c : DummyDmaChannel) :
  (length (mTransferQueue c) <= TRANSFER_QUEUE_SIZE)%nat ->
  (pushSuperpage sp c = inl "Could not push superpage, transfer queue was full"%string
   <-> getTransferQueueAvailable c = 0)
  /\ (forall c', pushSuperpage sp c = inr (tt, c') ->
        mTransferQueue c' = mTransferQueue c ++ [sp]
        /\ mReadyQueue c' = mReadyQueue c
        /\ mBufferSize c' = mBufferSize c
        /\ getTransferQueueAvailable c' = getTransferQueueAvailable c - 1).
Proof.
  intros Hlen. unfold pushSuperpage.
  destruct (Z.eqb_spec (getTransferQueueAvailable c) 0) as [E | E].
  - split; [tauto | discriminate].
  - split.
    + split; [| contradiction].
      repeat (match goal with
              | |- context [if ?b then _ else _] => destruct b
              end; try discriminate).
    + intros c'.
      repeat (match goal with
              | |- context [if ?b then _ else _] => destruct b
              end; try discriminate).
      intros H. injection H as <-.
      unfold getTransferQueueAvailable, TRANSFER_QUEUE_SIZE in *. simpl.
      rewrite DummyFacts.push_back_room by (unfold TRANSFER_QUEUE_SIZE; lia).
      rewrite length_app. simpl. repeat split; lia.
Qed.

Lemma pushSuperpage_back_pressure_witness :
  let sp := {| offset := 0; size := 32768; received := 0; ready := false |} in
  let c := {| mTransferQueue := replicate 16 sp; mReadyQueue := [];
              mBufferSize := MiB |} in
  pushSuperpage sp c = inl "Could not push superpage, transfer queue was full"%string
  <-> getTransferQueueAvailable c = 0.
Proof.
  refine (proj1 (pushSuperpage_back_pressure
           {| offset := 0; size := 32768; received := 0; ready := false |}
           {| mTransferQueue :=
                replicate 16
                  {| offset := 0; size := 32768; received := 0; ready := false |};
              mReadyQueue := []; mBufferSize := MiB |} _)).
  vm_compute. lia.
Defined.

End DummyPush.

(** ** Resetting the channel *)

Section Reset.
Context {card : Card} {consts : Constants} {cfg : Config}.
Local Open Scope crorc_scope.

Ltac card_answers :=
  repeat match goal with
         | |- context [card_ok ?h ?c] => destruct (card_ok h c)
         end.

(** [deviceResetChannel] never aborts, and whatever goes wrong reaches the
    caller with its context: every exception it throws is the card's,
    with the reset level and the loopback mode attached. *)
Theorem deviceResetChannel_error_context (resetLevel : ResetLevel) (s : Channel) :
  match deviceResetChannel resetLevel s with
  | Ok _ _ => True
  | Throw e _ =>
      exists c, e = CardError c [InfoResetLevel resetLevel;
                                 InfoLoopbackMode mLoopbackMode]
  | Abort => False
  end.
Proof.
  unfold deviceResetChannel, try_catch, bind, get, crorc, sleep_for, modify, throw,
    ret, add_info.
  destruct resetLevel, (isExternal mLoopbackMode), mLoopbackMode; simpl;
    card_answers; simpl; eauto.
Qed.

(** The reset levels do not build on each other. Level [Nothing] does
    nothing at all. With a loopback mode that is not external, level
    [Internal] sends the two reset commands (free FIFO, then RORC), while
    level [InternalDiuSiu] sends nothing to the card and only waits. *)
Theorem deviceResetChannel_levels (s : Channel) :
  deviceResetChannel RL_Nothing s = Ok tt s
  /\ (isExternal mLoopbackMode = false ->
      deviceResetChannel RL_InternalDiuSiu s = sleep_for s
      /\ (accepts_all card ->
          exists s',
            deviceResetChannel RL_Internal s = Ok tt s'
            /\ cardTrace s'
               = cardTrace s ++ [ResetCommand Reset_FF (mDiuConfig s);
                                 ResetCommand Reset_RORC (mDiuConfig s)])).
Proof.
  split; [reflexivity |]. intros Hext.
  unfold deviceResetChannel. rewrite Hext. split; [reflexivity |].
  intros Hall. unfold try_catch, bind, get, sleep_for, modify, ret. simpl.
  rewrite (crorc_accepted _ _ Hall). simpl.
  rewrite (crorc_accepted _ _ Hall). simpl.
  eexists. split; [reflexivity |]. simpl. rewrite <- app_assoc. reflexivity.
Qed.

End Reset.

Lemma deviceResetChannel_error_context_witness :
  @deviceResetChannel
    {| card_ok := fun _ c => match c with ResetCommand Reset_RORC _ => false | _ => true end;
       diuVersion := fun _ => 1; card_dma := fun _ f => f; rfid := 0 |}
    defaultConstants defaultConfig RL_Internal constructed
  = Throw (CardError (ResetCommand Reset_RORC 0)
             [InfoResetLevel RL_Internal; InfoLoopbackMode LB_Internal])
      (set_cardTrace [ResetCommand Reset_FF 0; ResetCommand Reset_RORC 0] constructed)
  /\ match @deviceResetChannel brokenGeneratorCard defaultConstants defaultConfig
             RL_Internal constructed with
     | Ok _ _ => True
     | Throw e _ =>
         exists c, e = CardError c [InfoResetLevel RL_Internal;
                                    InfoLoopbackMode (@mLoopbackMode defaultConfig)]
     | Abort => False
     end.
Proof.
  split; [reflexivity |].
  exact (@deviceResetChannel_error_context brokenGeneratorCard defaultConstants
           defaultConfig RL_Internal constructed).
Defined.

Lemma deviceResetChannel_levels_witness :
  @deviceResetChannel workingCard defaultConstants defaultConfig RL_InternalDiuSiu
    constructed
  = @sleep_for workingCard constructed
  /\ exists s',
       @deviceResetChannel workingCard defaultConstants defaultConfig RL_Internal
         constructed = Ok tt s'
       /\ cardTrace s' = [ResetCommand Reset_FF 0; ResetCommand Reset_RORC 0].
Proof.
  destruct (@deviceResetChannel_levels workingCard defaultConstants defaultConfig
              constructed) as (_ & H).
  destruct (H eq_refl) as (H1 & H2). split; [exact H1 |].
  apply H2. intros h c. reflexivity.
Defined.

(** ** The engine's edge cases on concrete channels *)

Lemma unrecognised_status_fails_fill_witness :
  @fillSuperpages workingCard defaultConstants bigBufferConfig garbledChannel
  = Throw (CrorcDataArrivalException "Unrecognized data arrival status word"
             0x55 2048 0) garbledChannel.
Proof.
  apply (@unrecognised_status_fails_fill workingCard defaultConstants bigBufferConfig
           garbledChannel garbledChannel (set_pushedPages 256 halfPushed) []
           {| length32 := 2048; status := 0x55 |}).
  - vm_compute. reflexivity.
  - vm_compute. reflexivity.
  - vm_compute. reflexivity.
  - vm_compute. split; [discriminate | reflexivity].
  - vm_compute. reflexivity.
  - vm_compute. split; [discriminate | reflexivity].
  - vm_compute. discriminate.
  - vm_compute. discriminate.
  - vm_compute. discriminate.
Defined.

Lemma fillSuperpages_idle_witness :
  @fillSuperpages workingCard defaultConstants defaultConfig
    (set_mPendingDmaStart true constructed)
  = Ok tt (set_mPendingDmaStart true constructed)
  /\ @after workingCard defaultConstants defaultConfig
       [FillSuperpages; FillSuperpages; FillSuperpages]
       (set_mPendingDmaStart true constructed)
     = Some (set_mPendingDmaStart true constructed).
Proof.
  apply (@fillSuperpages_idle workingCard defaultConstants defaultConfig 3
           (set_mPendingDmaStart true constructed)).
  - vm_compute. reflexivity.
  - vm_compute. reflexivity.
Defined.

(** A superpage of 3 MiB: the deferred start pushes and credits the first
    128 pages, the next call pushes 128 more, and from then on the channel
    stands still with 128 pages left to push. *)
Lemma fillSuperpages_stalls_witness :
  exists s,
    @after workingCard defaultConstants bigBufferConfig
      [StartDma; PushSuperpage thirdSuperpage; FillSuperpages; FillSuperpages]
      constructed = Some s
    /\ mFifoSize s = 128
    /\ map pushedPages (getPushing (mSuperpageQueue s)) = [256]
    /\ map maxPages (getPushing (mSuperpageQueue s)) = [384]
    /\ (forall fifo,
          @fillSuperpages workingCard defaultConstants bigBufferConfig
            (set_readyFifo fifo s) = Ok tt (set_readyFifo fifo s))
    /\ @after workingCard defaultConstants bigBufferConfig
         [FillSuperpages; FillSuperpages; FillSuperpages] s = Some s.
Proof.
  eexists. split; [vm_compute; reflexivity |].
  split; [reflexivity |]. split; [reflexivity |]. split; [reflexivity |].
  eapply (@fillSuperpages_stalls workingCard defaultConstants bigBufferConfig
            _ _ _ 3).
  - reflexivity.
  - vm_compute. reflexivity.
  - reflexivity.
  - vm_compute. reflexivity.
  - reflexivity.
Defined.

(** ** A deferred start that failed *)

Section FailedStart.
Context {card : Card} {consts : Constants} {cfg : Config}.
Local Open Scope crorc_scope.

Lemma stuck_hw_bind {A B} (m : M A) (k : A -> M B) (s : Channel) :
  hw_only m ->
  (forall a s', quiet s s' -> stuck (k a s')) ->
  stuck (bind m k s).
Proof.
  intros Hm Hk. unfold bind. specialize (Hm s).
  destruct (m s) as [a s1 | e s1 |]; simpl.
  - apply Hk, Hm.
  - tauto.
  - exact I.
Qed.

Lemma startPendingDma_stuck (entry : nat) (s : Channel) :
  mPendingDmaStart s = true ->
  FIFO_QUEUE_MAX <= mFifoSize s ->
  stuck (startPendingDma entry s).
Proof.
  intros Hpend Hfull. unfold startPendingDma.
  unfold bind at 1, get at 1. rewrite Hpend. cbn [negb].
  apply stuck_hw_bind; [repeat hw_step |]. intros _ s1 Q1.
  apply stuck_hw_bind; [apply hw_only_initDiuVersion |]. intros diu s2 Q2.
  unfold bind at 1, modify at 1.
  apply stuck_hw_bind; [apply hw_only_deviceResetChannel |]. intros _ s3 Q3.
  apply stuck_hw_bind; [apply hw_only_startDataReceiving |]. intros _ s4 Q4.
  assert (Hsize : mFifoSize s4 = mFifoSize s).
  { destruct Q1 as ((_ & E1 & _) & _), Q2 as ((_ & E2 & _) & _),
      Q3 as ((_ & E3 & _) & _), Q4 as ((_ & E4 & _) & _).
    simpl in E3. congruence. }
  change (Z.to_nat READYFIFO_ENTRIES) with (S 127). cbn [for_loop].
  unfold bind at 1 2 3. rewrite resetDescriptor_run by (unfold READYFIFO_ENTRIES; lia).
  unfold pushIntoSuperpage, bind at 1, get at 1. unfold bind at 1.
  cbn [mFifoSize set_readyFifo]. rewrite Hsize.
  destruct (Z.ltb_spec (mFifoSize s) FIFO_QUEUE_MAX); [lia |].
  exact I.
Qed.

(** A deferred start that fails after the ring was primed leaves the
    channel with the start still pending and the ring full. From there
    [fillSuperpages] can never return: it arms the card again and then
    trips [assert(mFifoSize < FIFO_QUEUE_MAX)] at the first descriptor it
    pushes, unless the card refuses a command before that. *)
Theorem failed_start_cannot_resume
    (s : Channel) (E : SuperpageQueueEntry) (rest : list SuperpageQueueEntry) :
  mPendingDmaStart s = true ->
  getPushing (mSuperpageQueue s) = E :: rest ->
  FIFO_QUEUE_MAX <= mFifoSize s ->
  (forall s', fillSuperpages s <> Ok tt s')
  /\ (accepts_all card -> fillSuperpages s = Abort).
Proof.
  intros Hpend Hp Hfull.
  assert (H : stuck (fillSuperpages s)).
  { unfold fillSuperpages, bind at 1.
    assert (Hpush : pushPhase s
                    = startPendingDma (nFilled (mSuperpageQueue s)
                                       + nArrivals (mSuperpageQueue s)) s).
    { unfold pushPhase, bind at 1, getQueue at 1. rewrite Hp. cbn [isNil negb].
      unfold bind at 1, getPushingFrontEntry, bind at 1, getQueue at 1.
      rewrite Hp. cbn [isNil]. unfold ret at 1.
      unfold bind at 1, get at 1. rewrite Hpend. reflexivity. }
    rewrite Hpush.
    pose proof (startPendingDma_stuck (nFilled (mSuperpageQueue s)
                                       + nArrivals (mSuperpageQueue s)) s Hpend Hfull)
      as Hs.
    destruct (startPendingDma _ s); [destruct Hs | exact Hs | exact I]. }
  split.
  - intros s' Heq. rewrite Heq in H. exact H.
  - intros Hall. destruct (fillSuperpages s); [destruct H | | reflexivity].
    destruct (H Hall).
Qed.

End FailedStart.

(** The card refuses to arm its generator, the superpage has 2 MiB: the
    first [fillSuperpages] throws with the ring primed and the start
    pending, the second never comes back. *)
Lemma failed_start_cannot_resume_witness :
  exists s,
    @after brokenGeneratorCard defaultConstants bigBufferConfig
      [StartDma; PushSuperpage secondSuperpage; FillSuperpages] constructed = Some s
    /\ mPendingDmaStart s = true
    /\ mFifoSize s = 128
    /\ @after brokenGeneratorCard defaultConstants bigBufferConfig
         [FillSuperpages] s = None
    /\ forall s', @fillSuperpages brokenGeneratorCard defaultConstants bigBufferConfig s
                  <> Ok tt s'.
Proof.
  eexists. split; [vm_compute; reflexivity |].
  split; [reflexivity |]. split; [reflexivity |]. split; [vm_compute; reflexivity |].
  eapply (@failed_start_cannot_resume brokenGeneratorCard defaultConstants
            bigBufferConfig).
  - reflexivity.
  - vm_compute. reflexivity.
  - vm_compute. discriminate.
Defined.

(** ** Indices stay in range *)

Section InRange.
Context {card : Card} {consts : Constants} {cfg : Config}.
Hypothesis Hlen : keeps_length card.
Local Open Scope crorc_scope.

Lemma quiet_in_range (s s' : Channel) : quiet s s' -> in_range s -> in_range s'.
Proof.
  unfold quiet, same_engine, in_range.
  intros ((B1 & _ & _ & B4 & _) & _ & B8) (H1 & H2 & H3).
  rewrite B1, B4, (B8 Hlen). auto.
Qed.

Lemma hw_only_in_range {A} (m : M A) : hw_only m -> keeps in_range m.
Proof.
  intros Hm s H. specialize (Hm s).
  destruct (m s) as [a s' | e s' |]; [| destruct Hm as (_ & Hm) | exact I];
    exact (quiet_in_range _ _ Hm H).
Qed.

Lemma in_range_modify (f : Channel -> Channel) :
  (forall s, in_range s -> in_range (f s)) -> keeps in_range (modify f).
Proof. intros H s Hs. apply H, Hs. Qed.

Lemma in_range_reads :
  keeps in_range getQueue
  /\ (forall b, keeps in_range (assert b))
  /\ (forall A e, keeps in_range (@throw A e))
  /\ (forall A, keeps in_range (@abort A))
  /\ (forall r, keeps in_range (deref r))
  /\ (forall i, keeps in_range (fifoEntry i))
  /\ (forall i, keeps in_range (dataArrived i))
  /\ keeps in_range getPushingFrontEntry
  /\ keeps in_range getArrivalsFrontEntry
  /\ (forall c, keeps in_range (crorc c))
  /\ (forall a v, keeps in_range (writeSdhEventSize a v)).
Proof.
  unfold keeps, in_range, dataArrived, getPushingFrontEntry,
    getArrivalsFrontEntry, writeSdhEventSize, crorc, fifoEntry, deref, assert,
    getQueue, bind, modify, throw, abort, ret.
  repeat split; intros; simpl;
    repeat (case_match; simplify_eq); simpl; tauto.
Qed.

Lemma in_range_ring_writes :
  (forall i, keeps in_range (resetDescriptor i))
  /\ keeps in_range resetReadyFifo.
Proof.
  unfold keeps, in_range, resetDescriptor, resetReadyFifo, modify.
  split.
  - intros i s (H1 & H2 & H3).
    destruct ((0 <=? i) && (i <? READYFIFO_ENTRIES)); simpl; [| exact I].
    rewrite length_insert. auto.
  - intros s (H1 & H2 & H3). simpl. rewrite length_map. auto.
Qed.

Lemma pushing_not_empty (q : SuperpageQueue) :
  isNil (getPushing q) = false ->
  (nFilled q + nArrivals q < length (entries q))%nat.
Proof.
  unfold getPushing. intros H.
  pose proof (length_drop (entries q) (nFilled q + nArrivals q)) as L.
  destruct (drop (nFilled q + nArrivals q) (entries q)); [discriminate |].
  simpl in L. lia.
Qed.

Lemma arrivals_not_empty (q : SuperpageQueue) :
  isNil (getArrivals q) = false -> (0 < nArrivals q)%nat.
Proof.
  unfold getArrivals. destruct (nArrivals q); [discriminate | lia].
Qed.

Lemma filled_not_empty (q : SuperpageQueue) e l :
  getFilled q = e :: l -> (0 < nFilled q)%nat /\ (0 < length (entries q))%nat.
Proof.
  unfold getFilled. destruct (nFilled q); [discriminate |].
  destruct (entries q); [discriminate |]. simpl. lia.
Qed.

Lemma in_range_queue_writes :
  (forall e, keeps in_range (addToQueue e))
  /\ keeps in_range removeFromPushingQueue
  /\ keeps in_range moveFromArrivalsToFilledQueue
  /\ keeps in_range removeFromFilledQueue
  /\ (forall r f, keeps in_range (update r f))
  /\ keeps in_range clear.
Proof.
  unfold keeps, in_range, addToQueue, removeFromPushingQueue,
    moveFromArrivalsToFilledQueue, removeFromFilledQueue, update, clear, setQueue,
    getQueue, bind, modify, throw, ret.
  refine (conj _ (conj _ (conj _ (conj _ (conj _ _))))); intros; cbv beta;
    repeat match goal with H : _ /\ _ |- _ => destruct H end.
  - destruct (_ <=? 0); simpl; repeat split; auto.
    rewrite length_app. simpl. lia.
  - destruct (isNil _) eqn:E; simpl; repeat split; auto.
    apply pushing_not_empty in E. lia.
  - destruct (isNil _) eqn:E; simpl; repeat split; auto.
    apply arrivals_not_empty in E. lia.
  - destruct (getFilled _) eqn:E; simpl; repeat split; auto.
    apply filled_not_empty in E. rewrite length_drop. lia.
  - cbn [mFifoBack readyFifo mSuperpageQueue set_mSuperpageQueue entries nFilled
         nArrivals].
    rewrite length_alter. auto.
  - simpl. repeat split; auto.
Qed.

Ltac range_step :=
  lazymatch goal with
  | |- keeps _ (ret _) => apply keeps_ret
  | |- keeps _ (bind get _) => apply keeps_get; intros ?
  | |- keeps _ (bind _ _) => apply keeps_bind; [| intros ?]
  | |- keeps _ (for_loop _ _ _) => apply keeps_for_loop; intros ?
  | |- keeps _ (if _ then _ else ret tt) => apply keeps_when
  | |- keeps _ (if ?b then _ else _) => destruct b
  | |- keeps _ (match ?l with [] => _ | _ :: _ => _ end) => destruct l
  | |- keeps _ startDataGenerator =>
      apply hw_only_in_range, hw_only_startDataGenerator
  | |- keeps _ startDataReceiving =>
      apply hw_only_in_range, hw_only_startDataReceiving
  | |- keeps _ (deviceResetChannel _) =>
      apply hw_only_in_range, hw_only_deviceResetChannel
  | |- keeps _ initDiuVersion => apply hw_only_in_range, hw_only_initDiuVersion
  | |- keeps _ sleep_for => apply hw_only_in_range, hw_only_sleep_for
  | |- keeps _ (resetDescriptor _) => apply in_range_ring_writes
  | |- keeps _ resetReadyFifo => apply in_range_ring_writes
  | |- keeps _ (addToQueue _) => apply in_range_queue_writes
  | |- keeps _ removeFromPushingQueue => apply in_range_queue_writes
  | |- keeps _ moveFromArrivalsToFilledQueue => apply in_range_queue_writes
  | |- keeps _ removeFromFilledQueue => apply in_range_queue_writes
  | |- keeps _ (update _ _) => apply in_range_queue_writes
  | |- keeps _ clear => apply in_range_queue_writes
  | |- keeps _ (modify _) =>
      apply in_range_modify; unfold in_range; intros ? (? & ? & ?); simpl;
      first [ tauto
            | split; [apply Z.mod_pos_bound; reflexivity | tauto]
            | split; [unfold READYFIFO_ENTRIES; lia | tauto] ]
  | |- keeps _ _ => apply in_range_reads
  end.

Lemma in_range_pushIntoSuperpage (entry : nat) :
  keeps in_range (pushIntoSuperpage entry).
Proof. unfold pushIntoSuperpage, pushFreeFifoPage. repeat range_step. Qed.

Lemma in_range_startPendingDma (entry : nat) :
  keeps in_range (startPendingDma entry).
Proof.
  unfold startPendingDma.
  repeat first [apply in_range_pushIntoSuperpage | range_step].
Qed.

Lemma in_range_pushPhase : keeps in_range pushPhase.
Proof.
  unfold pushPhase.
  repeat first [apply in_range_pushIntoSuperpage | apply in_range_startPendingDma
               | range_step].
Qed.

Lemma in_range_arrivalLoop (fuel : nat) : keeps in_range (arrivalLoop fuel).
Proof.
  induction fuel as [| fuel IH]; cbn [arrivalLoop]; [apply keeps_ret |].
  apply keeps_get. intros s0. destruct (mFifoSize s0 >? 0); [| apply keeps_ret].
  apply keeps_bind.
  - unfold arrivalStep, isArrived, harvestPage. repeat range_step.
  - intros [|]; [exact IH | apply keeps_ret].
Qed.

Lemma in_range_fillSuperpages : keeps in_range fillSuperpages.
Proof.
  unfold fillSuperpages, arrivalPhase.
  apply keeps_bind; [apply in_range_pushPhase | intros _].
  repeat first [apply in_range_arrivalLoop | range_step].
Qed.

Lemma in_range_perform (op : Operation) : keeps in_range (perform op).
Proof.
  destruct op; simpl.
  - unfold deviceStartDma. repeat range_step.
  - apply in_range_fillSuperpages.
  - unfold pushSuperpage, checkSuperpage. repeat range_step.
  - unfold popSuperpage. repeat range_step.
  - apply hw_only_in_range, hw_only_deviceStopDma.
Qed.


End InRange.

